(** * NetworkManager: the request lifecycle orchestrator of QtMultiThreadNetwork

    A shallow embedding of [src/networkmanager.cpp].  The private object
    [NetworkManagerPrivate] becomes a record, every member function a
    computation in a small state monad that also collects the outbound
    effects of the function (signals emitted, events posted, workers told to
    quit), in the order in which the C++ code performs them. *)

From Stdlib Require Import ZArith Lia.
From stdpp Require Import base numbers option list strings pretty gmap fin_maps sorting
  relations.

Local Open Scope Z_scope.

(** ** Machine integers *)

(** [quint64] and [qint64] values are integers of [Z]; a conversion to one of
    the two types reduces modulo [2^64]. *)
Definition wrap_u64 (z : Z) : Z := z mod 2 ^ 64.
Definition wrap_s64 (z : Z) : Z := (z + 2 ^ 63) mod 2 ^ 64 - 2 ^ 63.
(** [int] is 32 bits wide. *)
Definition wrap_s32 (z : Z) : Z := (z + 2 ^ 31) mod 2 ^ 32 - 2 ^ 31.

(** ** Data *)

(** A [QUrl] is seen through its text and through [QUrl::isValid()], the only
    member the manager calls. *)
Record QUrl := mkQUrl {
  url_text : string;
  url_isValid : bool
}.

(** The members of [RequestTask] (declared in [NetworkManager.h]) that the
    manager reads or writes. *)
Record RequestTask := mkRequestTask {
  uiId : Z;                           (* quint64 *)
  uiBatchId : Z;                      (* quint64, 0: not part of a batch *)
  url : QUrl;
  bSuccess : bool;
  bytesContent : string;
  bTryAgainWhileFailed : bool;
  bAbortBatchWhileOneFailed : bool
}.

(** [RequestTask()]: identifiers 0, flags false, nothing else filled in. *)
Definition RequestTask_default : RequestTask :=
  mkRequestTask 0 0 (mkQUrl "" false) false "" false false.

Definition set_uiId (v : Z) (t : RequestTask) : RequestTask :=
  mkRequestTask v (uiBatchId t) (url t) (bSuccess t) (bytesContent t)
    (bTryAgainWhileFailed t) (bAbortBatchWhileOneFailed t).
Definition set_uiBatchId (v : Z) (t : RequestTask) : RequestTask :=
  mkRequestTask (uiId t) v (url t) (bSuccess t) (bytesContent t)
    (bTryAgainWhileFailed t) (bAbortBatchWhileOneFailed t).
Definition set_bSuccess (v : bool) (t : RequestTask) : RequestTask :=
  mkRequestTask (uiId t) (uiBatchId t) (url t) v (bytesContent t)
    (bTryAgainWhileFailed t) (bAbortBatchWhileOneFailed t).
Definition set_bytesContent (v : string) (t : RequestTask) : RequestTask :=
  mkRequestTask (uiId t) (uiBatchId t) (url t) (bSuccess t) v
    (bTryAgainWhileFailed t) (bAbortBatchWhileOneFailed t).

Arguments set_uiId v t /.
Arguments set_uiBatchId v t /.
Arguments set_bSuccess v t /.
Arguments set_bytesContent v t /.

(** A [NetworkReply *] obtained from [new NetworkReply(bBatch)]: the address is
    the rank of the allocation. *)
Record NetworkReply := mkNetworkReply {
  reply_addr : nat;
  reply_isBatch : bool
}.

(** A [NetworkRequestThread *]: the worker bound to one task. *)
Record NetworkRequestThread := mkNetworkRequestThread {
  getTask : RequestTask
}.
Definition requsetId (t : NetworkRequestThread) : Z := uiId (getTask t).
Definition batchId (t : NetworkRequestThread) : Z := uiBatchId (getTask t).

(** The [QThreadPool]: its limit and the number of workers it is running. *)
Record QThreadPool := mkQThreadPool {
  pool_maxThreadCount : Z;            (* int *)
  pool_activeThreadCount : Z          (* int *)
}.

(** What a member function does to the outside, in program order. *)
Inductive Event : Type :=
| ThreadQuit (t : NetworkRequestThread)                       (* pThread->quit() *)
| ThreadStarted (t : NetworkRequestThread)                    (* tryStart succeeded *)
| ThreadDeleteLater (t : NetworkRequestThread)                (* pThread->deleteLater() *)
| PostReplyResult (r : NetworkReply) (request : RequestTask) (bDestroyed : bool)
                                                              (* postEvent(reply, ReplyResultEvent) *)
| ReplyResult (r : NetworkReply) (request : RequestTask) (bDestroyed : bool)
                                                              (* pReply->replyResult(...) *)
| DeleteReply (r : NetworkReply)                              (* qDeleteAll *)
| PostWaitForIdleThread                                       (* postEvent(this, WaitForIdleThreadEvent) *)
| downloadProgress (uiTargetId iBytes iTotalBytes : Z)
| uploadProgress (uiTargetId iBytes iTotalBytes : Z)
| batchDownloadProgress (uiBatchId uiBytes : Z)
| batchUploadProgress (uiBatchId uiBytes : Z)
| batchRequestFinished (uiBatchId : Z).

(** The members of [NetworkManagerPrivate], with the two static counters. *)
Record NetworkManagerPrivate := mkPrivate {
  ms_uiRequestId : Z;
  ms_uiBatchId : Z;
  m_bStopAllFlag : bool;
  m_pThreadPool : QThreadPool;
  m_mapRequestThread : gmap Z NetworkRequestThread;
  m_mapReply : gmap Z NetworkReply;
  m_mapBatchReply : gmap Z NetworkReply;
  m_queWaiting : list RequestTask;
  m_queFailed : gmap Z RequestTask;
  m_mapBatchTotalSize : gmap Z Z;
  m_mapBatchFinishedSize : gmap Z Z;
  m_mapBatchDownloadCurrentBytes : gmap Z (gmap Z Z);
  m_mapBatchDownloadTotalBytes : gmap Z Z;
  m_mapBatchUploadCurrentBytes : gmap Z (gmap Z Z);
  m_mapBatchUploadTotalBytes : gmap Z Z;
  heap_replies : nat                  (* NetworkReply objects allocated so far *)
}.

Definition set_ms_uiRequestId (v : Z) (d : NetworkManagerPrivate) :=
  mkPrivate v (ms_uiBatchId d) (m_bStopAllFlag d) (m_pThreadPool d)
    (m_mapRequestThread d) (m_mapReply d) (m_mapBatchReply d) (m_queWaiting d)
    (m_queFailed d) (m_mapBatchTotalSize d) (m_mapBatchFinishedSize d)
    (m_mapBatchDownloadCurrentBytes d) (m_mapBatchDownloadTotalBytes d)
    (m_mapBatchUploadCurrentBytes d) (m_mapBatchUploadTotalBytes d) (heap_replies d).
Definition set_ms_uiBatchId (v : Z) (d : NetworkManagerPrivate) :=
  mkPrivate (ms_uiRequestId d) v (m_bStopAllFlag d) (m_pThreadPool d)
    (m_mapRequestThread d) (m_mapReply d) (m_mapBatchReply d) (m_queWaiting d)
    (m_queFailed d) (m_mapBatchTotalSize d) (m_mapBatchFinishedSize d)
    (m_mapBatchDownloadCurrentBytes d) (m_mapBatchDownloadTotalBytes d)
    (m_mapBatchUploadCurrentBytes d) (m_mapBatchUploadTotalBytes d) (heap_replies d).
Definition set_m_bStopAllFlag (v : bool) (d : NetworkManagerPrivate) :=
  mkPrivate (ms_uiRequestId d) (ms_uiBatchId d) v (m_pThreadPool d)
    (m_mapRequestThread d) (m_mapReply d) (m_mapBatchReply d) (m_queWaiting d)
    (m_queFailed d) (m_mapBatchTotalSize d) (m_mapBatchFinishedSize d)
    (m_mapBatchDownloadCurrentBytes d) (m_mapBatchDownloadTotalBytes d)
    (m_mapBatchUploadCurrentBytes d) (m_mapBatchUploadTotalBytes d) (heap_replies d).
Definition set_m_pThreadPool (v : QThreadPool) (d : NetworkManagerPrivate) :=
  mkPrivate (ms_uiRequestId d) (ms_uiBatchId d) (m_bStopAllFlag d) v
    (m_mapRequestThread d) (m_mapReply d) (m_mapBatchReply d) (m_queWaiting d)
    (m_queFailed d) (m_mapBatchTotalSize d) (m_mapBatchFinishedSize d)
    (m_mapBatchDownloadCurrentBytes d) (m_mapBatchDownloadTotalBytes d)
    (m_mapBatchUploadCurrentBytes d) (m_mapBatchUploadTotalBytes d) (heap_replies d).
Definition set_m_mapRequestThread (v : gmap Z NetworkRequestThread) (d : NetworkManagerPrivate) :=
  mkPrivate (ms_uiRequestId d) (ms_uiBatchId d) (m_bStopAllFlag d) (m_pThreadPool d)
    v (m_mapReply d) (m_mapBatchReply d) (m_queWaiting d)
    (m_queFailed d) (m_mapBatchTotalSize d) (m_mapBatchFinishedSize d)
    (m_mapBatchDownloadCurrentBytes d) (m_mapBatchDownloadTotalBytes d)
    (m_mapBatchUploadCurrentBytes d) (m_mapBatchUploadTotalBytes d) (heap_replies d).
Definition set_m_mapReply (v : gmap Z NetworkReply) (d : NetworkManagerPrivate) :=
  mkPrivate (ms_uiRequestId d) (ms_uiBatchId d) (m_bStopAllFlag d) (m_pThreadPool d)
    (m_mapRequestThread d) v (m_mapBatchReply d) (m_queWaiting d)
    (m_queFailed d) (m_mapBatchTotalSize d) (m_mapBatchFinishedSize d)
    (m_mapBatchDownloadCurrentBytes d) (m_mapBatchDownloadTotalBytes d)
    (m_mapBatchUploadCurrentBytes d) (m_mapBatchUploadTotalBytes d) (heap_replies d).
Definition set_m_mapBatchReply (v : gmap Z NetworkReply) (d : NetworkManagerPrivate) :=
  mkPrivate (ms_uiRequestId d) (ms_uiBatchId d) (m_bStopAllFlag d) (m_pThreadPool d)
    (m_mapRequestThread d) (m_mapReply d) v (m_queWaiting d)
    (m_queFailed d) (m_mapBatchTotalSize d) (m_mapBatchFinishedSize d)
    (m_mapBatchDownloadCurrentBytes d) (m_mapBatchDownloadTotalBytes d)
    (m_mapBatchUploadCurrentBytes d) (m_mapBatchUploadTotalBytes d) (heap_replies d).
Definition set_m_queWaiting (v : list RequestTask) (d : NetworkManagerPrivate) :=
  mkPrivate (ms_uiRequestId d) (ms_uiBatchId d) (m_bStopAllFlag d) (m_pThreadPool d)
    (m_mapRequestThread d) (m_mapReply d) (m_mapBatchReply d) v
    (m_queFailed d) (m_mapBatchTotalSize d) (m_mapBatchFinishedSize d)
    (m_mapBatchDownloadCurrentBytes d) (m_mapBatchDownloadTotalBytes d)
    (m_mapBatchUploadCurrentBytes d) (m_mapBatchUploadTotalBytes d) (heap_replies d).
Definition set_m_queFailed (v : gmap Z RequestTask) (d : NetworkManagerPrivate) :=
  mkPrivate (ms_uiRequestId d) (ms_uiBatchId d) (m_bStopAllFlag d) (m_pThreadPool d)
    (m_mapRequestThread d) (m_mapReply d) (m_mapBatchReply d) (m_queWaiting d)
    v (m_mapBatchTotalSize d) (m_mapBatchFinishedSize d)
    (m_mapBatchDownloadCurrentBytes d) (m_mapBatchDownloadTotalBytes d)
    (m_mapBatchUploadCurrentBytes d) (m_mapBatchUploadTotalBytes d) (heap_replies d).
Definition set_m_mapBatchTotalSize (v : gmap Z Z) (d : NetworkManagerPrivate) :=
  mkPrivate (ms_uiRequestId d) (ms_uiBatchId d) (m_bStopAllFlag d) (m_pThreadPool d)
    (m_mapRequestThread d) (m_mapReply d) (m_mapBatchReply d) (m_queWaiting d)
    (m_queFailed d) v (m_mapBatchFinishedSize d)
    (m_mapBatchDownloadCurrentBytes d) (m_mapBatchDownloadTotalBytes d)
    (m_mapBatchUploadCurrentBytes d) (m_mapBatchUploadTotalBytes d) (heap_replies d).
Definition set_m_mapBatchFinishedSize (v : gmap Z Z) (d : NetworkManagerPrivate) :=
  mkPrivate (ms_uiRequestId d) (ms_uiBatchId d) (m_bStopAllFlag d) (m_pThreadPool d)
    (m_mapRequestThread d) (m_mapReply d) (m_mapBatchReply d) (m_queWaiting d)
    (m_queFailed d) (m_mapBatchTotalSize d) v
    (m_mapBatchDownloadCurrentBytes d) (m_mapBatchDownloadTotalBytes d)
    (m_mapBatchUploadCurrentBytes d) (m_mapBatchUploadTotalBytes d) (heap_replies d).
Definition set_m_mapBatchDownloadCurrentBytes (v : gmap Z (gmap Z Z)) (d : NetworkManagerPrivate) :=
  mkPrivate (ms_uiRequestId d) (ms_uiBatchId d) (m_bStopAllFlag d) (m_pThreadPool d)
    (m_mapRequestThread d) (m_mapReply d) (m_mapBatchReply d) (m_queWaiting d)
    (m_queFailed d) (m_mapBatchTotalSize d) (m_mapBatchFinishedSize d)
    v (m_mapBatchDownloadTotalBytes d)
    (m_mapBatchUploadCurrentBytes d) (m_mapBatchUploadTotalBytes d) (heap_replies d).
Definition set_m_mapBatchDownloadTotalBytes (v : gmap Z Z) (d : NetworkManagerPrivate) :=
  mkPrivate (ms_uiRequestId d) (ms_uiBatchId d) (m_bStopAllFlag d) (m_pThreadPool d)
    (m_mapRequestThread d) (m_mapReply d) (m_mapBatchReply d) (m_queWaiting d)
    (m_queFailed d) (m_mapBatchTotalSize d) (m_mapBatchFinishedSize d)
    (m_mapBatchDownloadCurrentBytes d) v
    (m_mapBatchUploadCurrentBytes d) (m_mapBatchUploadTotalBytes d) (heap_replies d).
Definition set_m_mapBatchUploadCurrentBytes (v : gmap Z (gmap Z Z)) (d : NetworkManagerPrivate) :=
  mkPrivate (ms_uiRequestId d) (ms_uiBatchId d) (m_bStopAllFlag d) (m_pThreadPool d)
    (m_mapRequestThread d) (m_mapReply d) (m_mapBatchReply d) (m_queWaiting d)
    (m_queFailed d) (m_mapBatchTotalSize d) (m_mapBatchFinishedSize d)
    (m_mapBatchDownloadCurrentBytes d) (m_mapBatchDownloadTotalBytes d)
    v (m_mapBatchUploadTotalBytes d) (heap_replies d).
Definition set_m_mapBatchUploadTotalBytes (v : gmap Z Z) (d : NetworkManagerPrivate) :=
  mkPrivate (ms_uiRequestId d) (ms_uiBatchId d) (m_bStopAllFlag d) (m_pThreadPool d)
    (m_mapRequestThread d) (m_mapReply d) (m_mapBatchReply d) (m_queWaiting d)
    (m_queFailed d) (m_mapBatchTotalSize d) (m_mapBatchFinishedSize d)
    (m_mapBatchDownloadCurrentBytes d) (m_mapBatchDownloadTotalBytes d)
    (m_mapBatchUploadCurrentBytes d) v (heap_replies d).
Definition set_heap_replies (v : nat) (d : NetworkManagerPrivate) :=
  mkPrivate (ms_uiRequestId d) (ms_uiBatchId d) (m_bStopAllFlag d) (m_pThreadPool d)
    (m_mapRequestThread d) (m_mapReply d) (m_mapBatchReply d) (m_queWaiting d)
    (m_queFailed d) (m_mapBatchTotalSize d) (m_mapBatchFinishedSize d)
    (m_mapBatchDownloadCurrentBytes d) (m_mapBatchDownloadTotalBytes d)
    (m_mapBatchUploadCurrentBytes d) (m_mapBatchUploadTotalBytes d) v.

(** The setters unfold on simplification, so that a member read after an
    update reduces. *)
Arguments set_ms_uiRequestId v d /.
Arguments set_ms_uiBatchId v d /.
Arguments set_m_bStopAllFlag v d /.
Arguments set_m_pThreadPool v d /.
Arguments set_m_mapRequestThread v d /.
Arguments set_m_mapReply v d /.
Arguments set_m_mapBatchReply v d /.
Arguments set_m_queWaiting v d /.
Arguments set_m_queFailed v d /.
Arguments set_m_mapBatchTotalSize v d /.
Arguments set_m_mapBatchFinishedSize v d /.
Arguments set_m_mapBatchDownloadCurrentBytes v d /.
Arguments set_m_mapBatchDownloadTotalBytes v d /.
Arguments set_m_mapBatchUploadCurrentBytes v d /.
Arguments set_m_mapBatchUploadTotalBytes v d /.
Arguments set_heap_replies v d /.

(** ** The monad of member functions *)

(** A member function run on a state either returns (a value, the new state,
    the effects performed), or runs into undefined behaviour of C++, or, for
    the two mutually recursive handlers, exhausts its recursion budget. *)
Inductive Outcome (A : Type) : Type :=
| Done (a : A) (d : NetworkManagerPrivate) (out : list Event)
| Undefined
| OutOfFuel.
Arguments Done {A} a d out.
Arguments Undefined {A}.
Arguments OutOfFuel {A}.

Definition M (A : Type) : Type := NetworkManagerPrivate -> Outcome A.

#[global] Instance M_ret : MRet M := λ A a d, Done a d [].
#[global] Instance M_bind : MBind M := λ A B k m d,
  match m d with
  | Done a d1 out1 =>
      match k a d1 with
      | Done b d2 out2 => Done b d2 (out1 ++ out2)
      | Undefined => Undefined
      | OutOfFuel => OutOfFuel
      end
  | Undefined => Undefined
  | OutOfFuel => OutOfFuel
  end.

Definition gets {A : Type} (f : NetworkManagerPrivate -> A) : M A :=
  λ d, Done (f d) d [].
Definition modify (f : NetworkManagerPrivate -> NetworkManagerPrivate) : M unit :=
  λ d, Done tt (f d) [].
Definition emit (e : Event) : M unit := λ d, Done tt d [e].
Definition undefined_behaviour {A : Type} : M A := λ _, Undefined.
Definition out_of_fuel {A : Type} : M A := λ _, OutOfFuel.

(** [for (x : l) body(x)] *)
Fixpoint for_each {A : Type} (l : list A) (body : A -> M unit) : M unit :=
  match l with
  | [] => mret tt
  | x :: l' => body x ;; for_each l' body
  end.

(** ** QMap *)

(** A [QMap<quint64, V>] is a [gmap Z V].  [QMap::value] gives a
    default-constructed value for a missing key; iteration and [last()] follow
    ascending keys. *)
Definition qmap_value {V : Type} (dflt : V) (m : gmap Z V) (k : Z) : V :=
  default dflt (m !! k).
Definition qmap_contains {V : Type} (m : gmap Z V) (k : Z) : bool :=
  bool_decide (is_Some (m !! k)).
Definition key_le {V : Type} (a b : Z * V) : Prop := a.1 <= b.1.
#[global] Instance key_le_dec {V : Type} : RelDecision (@key_le V) :=
  λ a b, decide (a.1 <= b.1).
Definition qmap_items {V : Type} (m : gmap Z V) : list (Z * V) :=
  merge_sort key_le (map_to_list m).
Definition qmap_values {V : Type} (m : gmap Z V) : list V := (qmap_items m).*2.
Definition qmap_last {V : Type} (m : gmap Z V) : option V := last (qmap_values m).
Definition qmap_isEmpty {V : Type} (m : gmap Z V) : bool :=
  bool_decide (m = ∅).

Arguments qmap_value : simpl never.
Arguments qmap_contains : simpl never.
Arguments qmap_values : simpl never.
Arguments qmap_last : simpl never.
Arguments qmap_isEmpty : simpl never.
Arguments wrap_u64 : simpl never.
Arguments wrap_s64 : simpl never.
Arguments wrap_s32 : simpl never.

(** ** NetworkManagerPrivate *)

(** The member functions of [NetworkManagerPrivate]; the C++ code reaches them
    through the pointer [d]. *)
Module d.

(** [QThread::idealThreadCount()] is an input: -1 when it cannot be detected. *)
Definition initialize (nIdeal : Z) : M unit :=
  pool ← gets m_pThreadPool ;
  if bool_decide (-1 ≠ nIdeal)
  then modify (set_m_pThreadPool (mkQThreadPool nIdeal (pool_activeThreadCount pool)))
  else modify (set_m_pThreadPool (mkQThreadPool 4 (pool_activeThreadCount pool))).

Definition reset : M unit :=
  modify (set_m_mapRequestThread ∅) ;;
  replies ← gets m_mapReply ;
  for_each (qmap_values replies) (λ r, emit (DeleteReply r)) ;;
  modify (set_m_mapReply ∅) ;;
  batchReplies ← gets m_mapBatchReply ;
  for_each (qmap_values batchReplies) (λ r, emit (DeleteReply r)) ;;
  modify (set_m_mapBatchReply ∅).

Definition resetData : M unit :=
  modify (set_m_queWaiting []) ;;
  modify (set_m_queFailed ∅) ;;
  modify (set_m_mapBatchTotalSize ∅) ;;
  modify (set_m_mapBatchFinishedSize ∅) ;;
  modify (set_m_mapBatchDownloadCurrentBytes ∅) ;;
  modify (set_m_mapBatchDownloadTotalBytes ∅) ;;
  modify (set_m_mapBatchUploadCurrentBytes ∅) ;;
  modify (set_m_mapBatchUploadTotalBytes ∅).

Definition resetStopAllFlag : M unit :=
  flag ← gets m_bStopAllFlag ;
  if flag : bool then modify (set_m_bStopAllFlag false) else mret tt.

Definition isStopAll : M bool := gets m_bStopAllFlag.

(** The task carried by the notification of [stopAllRequest]. *)
Definition canceled_all_task : RequestTask :=
  set_bytesContent "Operation canceled (All Request)"
    (set_bSuccess false (set_uiId 65535 RequestTask_default)).

Definition stopAllRequest : M unit :=
  flag ← gets m_bStopAllFlag ;
  if negb flag : bool then
    modify (set_m_bStopAllFlag true) ;;
    threads ← gets m_mapRequestThread ;
    for_each (qmap_values threads) (λ pThread, emit (ThreadQuit pThread)) ;;
    modify (set_m_mapRequestThread ∅) ;;
    replies ← gets m_mapReply ;
    (if negb (qmap_isEmpty replies) then
       match qmap_last replies with
       | Some reply => emit (PostReplyResult reply canceled_all_task true)
       | None => mret tt
       end
     else mret tt) ;;
    resetData ;;
    reset
  else mret tt.

(** The loop of [stopRequest] over the wait queue.  [None]: no entry has the
    id.  [Some (que, r)]: [que] is the queue after [erase], and [r] is what the
    iterator returned by [erase] points at, [None] when it is [end()]. *)
Fixpoint erase_first (uiTaskId : Z) (que : list RequestTask)
  : option (list RequestTask * option RequestTask) :=
  match que with
  | [] => None
  | t :: que' =>
      if bool_decide (uiId t = uiTaskId) then Some (que', head que')
      else '(q, r) ← erase_first uiTaskId que' ; Some (t :: q, r)
  end.

Definition canceled_request_content (uiTaskId : Z) : string :=
  "Operation canceled (Request id: " +:+ pretty uiTaskId +:+ ")".

Definition stopRequest (uiTaskId : Z) : M unit :=
  let task := RequestTask_default in
  threads ← gets m_mapRequestThread ;
  task ← match threads !! uiTaskId with
         | Some thread =>
             modify (set_m_mapRequestThread (delete uiTaskId threads)) ;;
             emit (ThreadQuit thread) ;;
             mret (getTask thread)
         | None => mret task
         end ;
  que ← gets m_queWaiting ;
  task ← match erase_first uiTaskId que with
         | Some (que', Some next) => modify (set_m_queWaiting que') ;; mret next
         | Some (que', None) => undefined_behaviour      (* *iter, iter == end() *)
         | None => mret task
         end ;
  failed ← gets m_queFailed ;
  (if qmap_contains failed uiTaskId
   then modify (set_m_queFailed (delete uiTaskId failed)) else mret tt) ;;
  replies ← gets m_mapReply ;
  modify (set_m_mapReply (delete uiTaskId replies)) ;;
  match replies !! uiTaskId with
  | Some reply =>
      let task := set_bytesContent (canceled_request_content uiTaskId)
                    (set_bSuccess false (set_uiId uiTaskId task)) in
      emit (PostReplyResult reply task true)
  | None => mret tt
  end.

Definition canceled_batch_task (uiBatchId : Z) : RequestTask :=
  set_bytesContent ("Operation canceled (Batch id: " +:+ pretty uiBatchId +:+ ")")
    (set_bSuccess false (set_uiBatchId uiBatchId RequestTask_default)).

Definition stopBatchRequests (batch : Z) : M unit :=
  threads ← gets m_mapRequestThread ;
  for_each (filter (λ t, batchId t = batch) (qmap_values threads))
    (λ pThread, emit (ThreadQuit pThread)) ;;
  modify (set_m_mapRequestThread (filter (λ kv, batchId kv.2 ≠ batch) threads)) ;;
  que ← gets m_queWaiting ;
  modify (set_m_queWaiting (filter (λ t, uiBatchId t ≠ batch) que)) ;;
  batchReplies ← gets m_mapBatchReply ;
  modify (set_m_mapBatchReply (delete batch batchReplies)) ;;
  match batchReplies !! batch with
  | Some reply => emit (PostReplyResult reply (canceled_batch_task batch) true)
  | None => mret tt
  end ;;
  m ← gets m_mapBatchTotalSize ;
  (if qmap_contains m batch
   then modify (set_m_mapBatchTotalSize (delete batch m)) else mret tt) ;;
  m ← gets m_mapBatchFinishedSize ;
  (if qmap_contains m batch
   then modify (set_m_mapBatchFinishedSize (delete batch m)) else mret tt) ;;
  m ← gets m_mapBatchDownloadCurrentBytes ;
  (if qmap_contains m batch
   then modify (set_m_mapBatchDownloadCurrentBytes (delete batch m)) else mret tt) ;;
  m ← gets m_mapBatchDownloadTotalBytes ;
  (if qmap_contains m batch
   then modify (set_m_mapBatchDownloadTotalBytes (delete batch m)) else mret tt) ;;
  m ← gets m_mapBatchUploadCurrentBytes ;
  (if qmap_contains m batch
   then modify (set_m_mapBatchUploadCurrentBytes (delete batch m)) else mret tt) ;;
  m ← gets m_mapBatchUploadTotalBytes ;
  (if qmap_contains m batch
   then modify (set_m_mapBatchUploadTotalBytes (delete batch m)) else mret tt).

Definition isRequestValid (u : QUrl) : bool := url_isValid u.

Definition newRequestId : M Z :=
  n ← gets ms_uiRequestId ;
  modify (set_ms_uiRequestId (wrap_u64 (n + 1))) ;;
  mret (wrap_u64 (n + 1)).

Definition newBatchId : M Z :=
  n ← gets ms_uiBatchId ;
  modify (set_ms_uiBatchId (wrap_u64 (n + 1))) ;;
  mret (wrap_u64 (n + 1)).

(** [new NetworkReply(bBatch)] *)
Definition new_NetworkReply (bBatch : bool) : M NetworkReply :=
  n ← gets heap_replies ;
  modify (set_heap_replies (S n)) ;;
  mret (mkNetworkReply n bBatch).

Definition addToWaitQueue (request : RequestTask) : M unit :=
  que ← gets m_queWaiting ;
  modify (set_m_queWaiting (que ++ [request])).

Definition takeFromWaitQueue : M RequestTask :=
  que ← gets m_queWaiting ;
  match que with
  | request :: que' => modify (set_m_queWaiting que') ;; mret request
  | [] => mret RequestTask_default
  end.

(** [uiId] is passed by reference: the function returns its final value. *)
Definition addRequest (u : QUrl) (uiId : Z) : M (option NetworkReply * Z) :=
  if isRequestValid u then
    uiId ← newRequestId ;
    pReply ← new_NetworkReply false ;
    replies ← gets m_mapReply ;
    modify (set_m_mapReply (<[uiId := pReply]> replies)) ;;
    mret (Some pReply, uiId)
  else mret (None, uiId).

Definition addBatchRequest (tasks : list RequestTask) : M (NetworkReply * Z) :=
  uiBatchId ← newBatchId ;
  m ← gets m_mapBatchTotalSize ;
  modify (set_m_mapBatchTotalSize
            (<[uiBatchId := wrap_s32 (Z.of_nat (length tasks))]> m)) ;;
  pReply ← new_NetworkReply true ;
  batchReplies ← gets m_mapBatchReply ;
  modify (set_m_mapBatchReply (<[uiBatchId := pReply]> batchReplies)) ;;
  for_each tasks (λ request,
    let request := set_uiBatchId uiBatchId request in
    id ← newRequestId ;
    addToWaitQueue (set_uiId id request)) ;;
  mret (pReply, uiBatchId).

(** [QThreadPool::tryStart] reserves a thread when fewer than the limit are
    active. *)
Definition startRequest (thread : NetworkRequestThread) : M bool :=
  pool ← gets m_pThreadPool ;
  if bool_decide (pool_activeThreadCount pool < pool_maxThreadCount pool) then
    modify (set_m_pThreadPool
              (mkQThreadPool (pool_maxThreadCount pool) (pool_activeThreadCount pool + 1))) ;;
    emit (ThreadStarted thread) ;;
    threads ← gets m_mapRequestThread ;
    modify (set_m_mapRequestThread (<[requsetId thread := thread]> threads)) ;;
    mret true
  else mret false.

(** [m_pThreadPool] is set by the constructor and never reset: the tests
    [&& m_pThreadPool] and [if (m_pThreadPool)] succeed. *)
Definition setMaxThreadCount (nMax : Z) : M bool :=
  if bool_decide (nMax >= 1) && bool_decide (nMax <= 8) then
    pool ← gets m_pThreadPool ;
    modify (set_m_pThreadPool (mkQThreadPool nMax (pool_activeThreadCount pool))) ;;
    mret true
  else mret false.

Definition maxThreadCount : M Z :=
  pool ← gets m_pThreadPool ; mret (pool_maxThreadCount pool).

Definition isThreadAvailable : M bool :=
  pool ← gets m_pThreadPool ;
  mret (bool_decide (pool_activeThreadCount pool < pool_maxThreadCount pool)).

Definition isWaitQueueEmpty : M bool :=
  que ← gets m_queWaiting ; mret (bool_decide (que = [])).

Definition getReply (uiRequestId : Z) (bRemove : bool) : M (option NetworkReply) :=
  replies ← gets m_mapReply ;
  if qmap_contains replies uiRequestId then
    if bRemove then
      modify (set_m_mapReply (delete uiRequestId replies)) ;;
      mret (replies !! uiRequestId)
    else mret (replies !! uiRequestId)
  else mret None.

Definition getBatchReply (uiBatchId : Z) (bRemove : bool) : M (option NetworkReply) :=
  batchReplies ← gets m_mapBatchReply ;
  if qmap_contains batchReplies uiBatchId then
    if bRemove then
      modify (set_m_mapBatchReply (delete uiBatchId batchReplies)) ;;
      mret (batchReplies !! uiBatchId)
    else mret (batchReplies !! uiBatchId)
  else mret None.

Definition addToFailedQueue (request : RequestTask) : M bool :=
  failed ← gets m_queFailed ;
  if negb (qmap_contains failed (uiId request)) then
    modify (set_m_queFailed (<[uiId request := request]> failed)) ;;
    mret true
  else mret false.

Definition clearFailedQueue : M unit := modify (set_m_queFailed ∅).

(** The bytes a report adds: [uiIncreased], a [quint64]. *)
Definition increased (mapReqId2Bytes : gmap Z Z) (uiRequestId iBytes : Z) : Z :=
  match mapReqId2Bytes !! uiRequestId with
  | Some last => if bool_decide (iBytes > last) then wrap_u64 (iBytes - last) else 0
  | None => wrap_u64 iBytes
  end.

Definition updateBatchProgress (uiRequestId uiBatchId iBytes : Z) (bDownload : bool) : M Z :=
  if bool_decide (iBytes = 0) then
    if bDownload then
      (* operator[]: a missing key is inserted with value 0 *)
      m ← gets m_mapBatchDownloadTotalBytes ;
      modify (set_m_mapBatchDownloadTotalBytes (<[uiBatchId := qmap_value 0 m uiBatchId]> m)) ;;
      mret (qmap_value 0 m uiBatchId)
    else
      m ← gets m_mapBatchUploadTotalBytes ;
      modify (set_m_mapBatchUploadTotalBytes (<[uiBatchId := qmap_value 0 m uiBatchId]> m)) ;;
      mret (qmap_value 0 m uiBatchId)
  else if bDownload then
    cur ← gets m_mapBatchDownloadCurrentBytes ;
    let mapReqId2Bytes := qmap_value ∅ cur uiBatchId in
    let uiIncreased := increased mapReqId2Bytes uiRequestId iBytes in
    let mapReqId2Bytes := <[uiRequestId := iBytes]> mapReqId2Bytes in
    modify (set_m_mapBatchDownloadCurrentBytes (<[uiBatchId := mapReqId2Bytes]> cur)) ;;
    tot ← gets m_mapBatchDownloadTotalBytes ;
    newest ← gets ms_uiBatchId ;
    let uiTotalBytes := wrap_u64 (qmap_value 0 tot newest + uiIncreased) in
    modify (set_m_mapBatchDownloadTotalBytes (<[uiBatchId := wrap_s64 uiTotalBytes]> tot)) ;;
    mret (wrap_s64 uiTotalBytes)
  else
    cur ← gets m_mapBatchUploadCurrentBytes ;
    let mapReqId2Bytes := qmap_value ∅ cur uiBatchId in
    let uiIncreased := increased mapReqId2Bytes uiRequestId iBytes in
    let mapReqId2Bytes := <[uiRequestId := iBytes]> mapReqId2Bytes in
    modify (set_m_mapBatchUploadCurrentBytes (<[uiBatchId := mapReqId2Bytes]> cur)) ;;
    tot ← gets m_mapBatchUploadTotalBytes ;
    newest ← gets ms_uiBatchId ;
    let uiTotalBytes := wrap_u64 (qmap_value 0 tot newest + uiIncreased) in
    modify (set_m_mapBatchUploadTotalBytes (<[uiBatchId := wrap_s64 uiTotalBytes]> tot)) ;;
    mret (wrap_s64 uiTotalBytes).

Definition killRequestThread (uiRequestId : Z) : M bool :=
  threads ← gets m_mapRequestThread ;
  match threads !! uiRequestId with
  | Some pThread =>
      modify (set_m_mapRequestThread (delete uiRequestId threads)) ;;
      emit (ThreadQuit pThread) ;;
      mret true
  | None => mret false
  end.

End d.

(** ** NetworkManager *)

Module NetworkManager.

Definition stopAllRequest : M unit := d.stopAllRequest.
Definition stopRequest (uiTaskId : Z) : M unit := d.stopRequest uiTaskId.
Definition stopBatchRequests (uiBatchId : Z) : M unit := d.stopBatchRequests uiBatchId.
Definition fini : M unit := stopAllRequest.

Definition setMaxThreadCount (iMax : Z) : M bool := d.setMaxThreadCount iMax.
Definition maxThreadCount : M Z := d.maxThreadCount.
Definition isThreadAvailable : M bool := d.isThreadAvailable.
Definition isWaitingRequestEmpty : M bool := d.isWaitQueueEmpty.
Definition waitForIdleThread : M unit := emit PostWaitForIdleThread.

Definition startRequest (request : RequestTask) : M bool :=
  let pThread := mkNetworkRequestThread request in
  started ← d.startRequest pThread ;
  if negb started : bool then
    d.addToWaitQueue request ;;
    emit (ThreadDeleteLater pThread) ;;
    mret false
  else mret true.

(** [request] is passed by reference: the function returns the reply handle
    and the task as the caller sees it afterwards. *)
Definition addRequest (request : RequestTask) : M (option NetworkReply * RequestTask) :=
  d.resetStopAllFlag ;;
  r ← d.addRequest (url request) (uiId request) ;
  let pReply : option NetworkReply := r.1 in
  let request := set_uiId r.2 request in
  (if bool_decide (is_Some pReply) then
     avail ← isThreadAvailable ;
     empty ← isWaitingRequestEmpty ;
     if (avail && empty)%bool
     then startRequest request ;; mret tt
     else d.addToWaitQueue request
   else mret tt) ;;
  mret (pReply, request).

Definition updateProgress (uiTargetId uiBatchId iBytes iTotalBytes : Z) (bDownload : bool)
  : M unit :=
  if bool_decide (iBytes = 0) || bool_decide (iTotalBytes = 0) then mret tt
  else if bool_decide (uiBatchId = 0) then
    if bDownload
    then emit (downloadProgress uiTargetId iBytes iTotalBytes)
    else emit (uploadProgress uiTargetId iBytes iTotalBytes)
  else if bool_decide (uiBatchId > 0) then
    r ← d.updateBatchProgress uiTargetId uiBatchId iBytes bDownload ;
    let uiBytes := wrap_u64 r in
    if bDownload
    then emit (batchDownloadProgress uiBatchId uiBytes)
    else emit (batchUploadProgress uiBatchId uiBytes)
  else mret tt.

Definition isValidTask (request : RequestTask) : bool := bool_decide (uiId request > 0).

Section handlers.

(** Whether the build defines the macro [NETWORK_REPLY_ASYN]. *)
Variable NETWORK_REPLY_ASYN : bool.

(** Step 2 of [onRequestFinished] for a batch member: which reply handle is
    notified, and whether the notification destroys it. *)
Definition batchReplyOf (request : RequestTask) : M (option NetworkReply * bool) :=
  let batch := uiBatchId request in
  if bSuccess request then
    finished ← gets m_mapBatchFinishedSize ;
    let sizeFinished := wrap_s32 (qmap_value 0 finished batch + 1) in
    modify (set_m_mapBatchFinishedSize (<[batch := sizeFinished]> finished)) ;;
    total ← gets m_mapBatchTotalSize ;
    let sizeTotal := qmap_value 0 total batch in
    if bool_decide (sizeFinished = sizeTotal) then
      modify (set_m_mapBatchTotalSize (delete batch total)) ;;
      finished ← gets m_mapBatchFinishedSize ;
      modify (set_m_mapBatchFinishedSize (delete batch finished)) ;;
      emit (batchRequestFinished batch) ;;
      pReply ← d.getBatchReply batch true ;
      mret (pReply, true)
    else
      pReply ← d.getBatchReply batch false ;
      mret (pReply, false)
  else
    let bDestroyed := bAbortBatchWhileOneFailed request in
    pReply ← d.getBatchReply batch bDestroyed ;
    mret (pReply, bDestroyed).

(** Step 1 of [onRequestFinished]: a first failure of a task that asks for it
    is queued again; the result is [bNotify]. *)
Definition retryOrNotify (request : RequestTask) : M bool :=
  if negb (bSuccess request) then
    if bTryAgainWhileFailed request then
      first ← d.addToFailedQueue request ;
      if first : bool then d.addToWaitQueue request ;; mret false
      else mret true
    else mret true
  else mret (bSuccess request).

(** Step 2: the reply handle of the task, or of its batch, receives the
    result. *)
Definition notifyResult (request : RequestTask) : M unit :=
  r ← (if bool_decide (uiBatchId request = 0) then
         pReply ← d.getReply (uiId request) true ; mret (pReply, true)
       else if bool_decide (uiBatchId request > 0) then batchReplyOf request
       else mret (None, true)) ;
  match r.1 with
  | Some pReply =>
      if NETWORK_REPLY_ASYN
      then emit (PostReplyResult pReply request r.2)
      else emit (ReplyResult pReply request r.2)
  | None => mret tt
  end.

(** Step 3: a failed member that asks for it stops its batch. *)
Definition abortBatch (request : RequestTask) : M unit :=
  if bool_decide (uiBatchId request > 0) && negb (bSuccess request)
     && bAbortBatchWhileOneFailed request
  then d.stopBatchRequests (uiBatchId request) else mret tt.

(** Steps 1 to 4 of [onRequestFinished], once the guard has let the task in;
    step 4 releases the worker. *)
Definition settleRequest (request : RequestTask) : M unit :=
  bNotify ← retryOrNotify request ;
  (if bNotify : bool then notifyResult request else mret tt) ;;
  abortBatch request ;;
  d.killRequestThread (uiId request) ;;
  mret tt.

(** [onRequestFinished], with the handler to run for step 5. *)
Definition onRequestFinished_then (next : M unit) (request : RequestTask) : M unit :=
  stopped ← d.isStopAll ;
  if (stopped || negb (isValidTask request))%bool then mret tt
  else settleRequest request ;; next.

(** [startNextRequest] and [onRequestFinished] call each other: [fuel] bounds
    the depth of the calls. *)
Fixpoint startNextRequest (fuel : nat) : M unit :=
  match fuel with
  | O => out_of_fuel
  | S fuel =>
      stopped ← d.isStopAll ;
      if stopped : bool then mret tt
      else
        empty ← isWaitingRequestEmpty ;
        if negb empty : bool then
          avail ← isThreadAvailable ;
          if avail : bool then
            request ← d.takeFromWaitQueue ;
            if d.isRequestValid (url request)
            then startRequest request ;; mret tt
            else onRequestFinished_then (startNextRequest fuel) request
          else waitForIdleThread
        else
          pool ← gets m_pThreadPool ;
          let nActiveThread := pool_activeThreadCount pool in
          if bool_decide (0 = nActiveThread) then d.clearFailedQueue
          else if bool_decide (1 = nActiveThread) then waitForIdleThread
          else mret tt
  end.

Definition onRequestFinished (fuel : nat) (request : RequestTask) : M unit :=
  onRequestFinished_then (startNextRequest fuel) request.

(** The batch id is returned with the reply handle; it is 0 when there is
    none. *)
Definition addBatchRequest (fuel : nat) (tasks : list RequestTask)
  : M (option NetworkReply * Z) :=
  d.resetStopAllFlag ;;
  if negb (bool_decide (tasks = [])) then
    r ← d.addBatchRequest tasks ;
    (if bool_decide (r.2 > 0) then
       avail ← isThreadAvailable ;
       if avail : bool then startNextRequest fuel else mret tt
     else mret tt) ;;
    mret (Some r.1, r.2)
  else mret (None, 0).

(** The events the reactor thread receives.  The two kinds of [NetworkEvent]
    are handled by [event] itself; every other event is passed on to
    [QObject::event].  That one runs the slot for a queued call of a slot
    (the only slot connected here is [onRequestFinished], by [startRequest])
    and answers true; for any other event it leaves the members of the manager
    alone, and [bBase] is its answer. *)
Inductive NetworkEvent : Type :=
| WaitForIdleThread
| NetworkProgress (uiId uiBatchId iBtyes iTotalBtyes : Z) (bDownload : bool)
| MetaCall (request : RequestTask)
| OtherEvent (bBase : bool).

Definition event (fuel : nat) (e : NetworkEvent) : M bool :=
  match e with
  | WaitForIdleThread => startNextRequest fuel ;; mret true
  | NetworkProgress uiId uiBatchId iBtyes iTotalBtyes bDownload =>
      updateProgress uiId uiBatchId iBtyes iTotalBtyes bDownload ;; mret true
  | MetaCall request =>                      (* return QObject::event(event) *)
      onRequestFinished fuel request ;; mret true
  | OtherEvent bBase => mret bBase           (* return QObject::event(event) *)
  end.

End handlers.

End NetworkManager.

(** A worker returns from [run()]: the pool has one active thread less.  This
    is a step of the pool, taken between two handlers of the manager. *)
Definition workerExited : M unit :=
  pool ← gets m_pThreadPool ;
  modify (set_m_pThreadPool
            (mkQThreadPool (pool_maxThreadCount pool) (pool_activeThreadCount pool - 1))).

(** The object built by the constructors, on a machine whose pool starts with
    the limit [nMax]. *)
Definition constructed (nMax : Z) : NetworkManagerPrivate :=
  mkPrivate 0 0 false (mkQThreadPool nMax 0) ∅ ∅ ∅ [] ∅ ∅ ∅ ∅ ∅ ∅ ∅ 0.

(** ** Notions used in the statements *)

(** The state a computation leaves (the initial one if it does not return). *)
Definition state_after {A : Type} (m : M A) (s : NetworkManagerPrivate) : NetworkManagerPrivate :=
  match m s with
  | Done _ s' _ => s'
  | _ => s
  end.

(** [m] returns when run from [s]. *)
Definition completes {A : Type} (m : M A) (s : NetworkManagerPrivate) : Prop :=
  ∃ a s' out, m s = Done a s' out.

(** [m] returns from every state satisfying [P], in a state satisfying [P]. *)
Definition preserves {A : Type} (P : NetworkManagerPrivate → Prop) (m : M A) : Prop :=
  ∀ s, P s → ∃ a s' out, m s = Done a s' out ∧ P s'.

(** The global stop flag is clear. *)
Definition running (s : NetworkManagerPrivate) : Prop := m_bStopAllFlag s = false.

(** The notifications of reply handles among the effects. *)
Definition is_notification (e : Event) : bool :=
  match e with
  | PostReplyResult _ _ _ | ReplyResult _ _ _ => true
  | _ => false
  end.
Definition notifications (out : list Event) : list Event :=
  filter (λ e, is_notification e = true) out.

(** The notification made by step 2 of [onRequestFinished]. *)
Definition notification (asyn : bool) (reply : NetworkReply) (request : RequestTask)
    (bDestroyed : bool) : Event :=
  if asyn then PostReplyResult reply request bDestroyed
  else ReplyResult reply request bDestroyed.

(** The pool capacity. *)
Definition capacity (s : NetworkManagerPrivate) : Z := pool_maxThreadCount (m_pThreadPool s).

(** *** The byte ledger, by direction *)

Definition currentBytes (bDownload : bool) (s : NetworkManagerPrivate) : gmap Z (gmap Z Z) :=
  if bDownload then m_mapBatchDownloadCurrentBytes s else m_mapBatchUploadCurrentBytes s.
Definition totalBytes (bDownload : bool) (s : NetworkManagerPrivate) : gmap Z Z :=
  if bDownload then m_mapBatchDownloadTotalBytes s else m_mapBatchUploadTotalBytes s.

(** The sum of the values last recorded for the members of a batch. *)
Definition latest_sum (m : gmap Z Z) : Z := map_fold (λ _ v acc, v + acc) 0 m.
Definition latest_nonneg (m : gmap Z Z) : Prop := map_Forall (λ _ v, 0 <= v) m.

(** The running total of batch [b] is the sum of the values last recorded for
    its members. *)
Definition aggregate_is_sum_of_latest (dir : bool) (b : Z) (s : NetworkManagerPrivate) : Prop :=
  qmap_value 0 (totalBytes dir s) b = latest_sum (qmap_value ∅ (currentBytes dir s) b).

(** A progress report, as [updateBatchProgress] receives it. *)
Record Report := mkReport {
  rTask : Z;
  rBatch : Z;
  rBytes : Z;
  rDownload : bool
}.

Definition report (r : Report) : M Z :=
  d.updateBatchProgress (rTask r) (rBatch r) (rBytes r) (rDownload r).

Definition report_all (rs : list Report) : M unit :=
  for_each rs (λ r, report r ;; mret tt).

(** The report is for batch [b] in direction [dir]. *)
Definition concerns (dir : bool) (b : Z) (r : Report) : bool :=
  bool_decide (rBatch r = b) && bool_decide (rDownload r = dir).

(** The values last reported for the members of [b], after the reports [rs]. *)
Fixpoint latest (dir : bool) (b : Z) (m : gmap Z Z) (rs : list Report) : gmap Z Z :=
  match rs with
  | [] => m
  | r :: rs' =>
      if concerns dir b r then latest dir b (<[rTask r := rBytes r]> m) rs'
      else latest dir b m rs'
  end.

(** The largest value reported for each member of [b], after the reports
    [rs]. *)
Fixpoint highest (dir : bool) (b : Z) (m : gmap Z Z) (rs : list Report) : gmap Z Z :=
  match rs with
  | [] => m
  | r :: rs' =>
      if concerns dir b r
      then highest dir b (<[rTask r := Z.max (default 0 (m !! rTask r)) (rBytes r)]> m) rs'
      else highest dir b m rs'
  end.

(** The rise of a report of [x] bytes over the value [last] recorded for its
    task: the difference when the report exceeds it, 0 otherwise. *)
Definition rise (last x : Z) : Z := if bool_decide (x > last) then x - last else 0.

(** The sum of the rises of the reports [rs] for batch [b], each over the
    value last reported for the same member ([m] holds the values recorded
    before; 0 stands for a member not seen yet). *)
Fixpoint climbed (dir : bool) (b : Z) (m : gmap Z Z) (rs : list Report) : Z :=
  match rs with
  | [] => 0
  | r :: rs' =>
      if concerns dir b r
      then rise (default 0 (m !! rTask r)) (rBytes r)
           + climbed dir b (<[rTask r := rBytes r]> m) rs'
      else climbed dir b m rs'
  end.

(** The sum of the bytes of the reports for batch [b]. *)
Fixpoint reported (dir : bool) (b : Z) (rs : list Report) : Z :=
  match rs with
  | [] => 0
  | r :: rs' => if concerns dir b r then rBytes r + reported dir b rs' else reported dir b rs'
  end.

(** The reports for batch [b] carry positive bytes. *)
Definition positive (dir : bool) (b : Z) (rs : list Report) : Prop :=
  Forall (λ r, concerns dir b r = true → 0 < rBytes r) rs.

(** No report for batch [b] falls below the value last reported for the same
    member. *)
Fixpoint rising (dir : bool) (b : Z) (m : gmap Z Z) (rs : list Report) : Prop :=
  match rs with
  | [] => True
  | r :: rs' =>
      if concerns dir b r
      then default 0 (m !! rTask r) <= rBytes r ∧ rising dir b (<[rTask r := rBytes r]> m) rs'
      else rising dir b m rs'
  end.

(** *** stopAllRequest *)

(** The state [stopAllRequest] leaves when the flag was clear. *)
Definition stopped (s : NetworkManagerPrivate) : NetworkManagerPrivate :=
  mkPrivate (ms_uiRequestId s) (ms_uiBatchId s) true (m_pThreadPool s)
    ∅ ∅ ∅ [] ∅ ∅ ∅ ∅ ∅ ∅ ∅ (heap_replies s).

(** The cancellation it posts. *)
Definition canceled_all (s : NetworkManagerPrivate) : list Event :=
  match qmap_last (m_mapReply s) with
  | Some reply => [PostReplyResult reply d.canceled_all_task true]
  | None => []
  end.

(** *** Failures *)


(** The completions a queued task can still cause: two when its failure is
    going to be retried. *)
Definition attempts (failed : gmap Z RequestTask) (t : RequestTask) : nat :=
  if negb (bSuccess t) && bTryAgainWhileFailed t && negb (qmap_contains failed (uiId t))
  then 2%nat else 1%nat.
Definition pending (failed : gmap Z RequestTask) (que : list RequestTask) : nat :=
  sum_list_with (attempts failed) que.
Definition backlog (s : NetworkManagerPrivate) : nat :=
  pending (m_queFailed s) (m_queWaiting s).

(** *** Scenarios *)

Definition a_task (retry abort : bool) : RequestTask :=
  mkRequestTask 0 0 (mkQUrl "http://host/file" true) false "" retry abort.

(** One batch of two tasks submitted to a fresh manager. *)
Definition one_batch : NetworkManagerPrivate := Eval vm_compute in
  state_after (NetworkManager.addBatchRequest false 8 [a_task false false; a_task false false])
    (constructed 4).

(** Task 1 of batch 1 reports 100, then 80, then 90 bytes received. *)
Definition dipping_reports : list Report :=
  [mkReport 1 1 100 true; mkReport 1 1 80 true; mkReport 1 1 90 true].

(** Two batches of one task each: batch 1 holds task 1, batch 2 task 2. *)
Definition two_batches : NetworkManagerPrivate := Eval vm_compute in
  state_after (NetworkManager.addBatchRequest false 8 [a_task false false])
    (state_after (NetworkManager.addBatchRequest false 8 [a_task false false]) (constructed 4)).

(** Two single tasks on a pool of one thread: task 1 runs, task 2 waits. *)
Definition two_submitted : NetworkManagerPrivate := Eval vm_compute in
  state_after (NetworkManager.addRequest (a_task false false))
    (state_after (NetworkManager.addRequest (a_task false false)) (constructed 1)).

(** Batch 1 of one task, which runs and has reported 100 bytes down and 40
    bytes up. *)
Definition batch_of_one_in_flight : NetworkManagerPrivate := Eval vm_compute in
  state_after (NetworkManager.updateProgress 1 1 40 50 false)
    (state_after (NetworkManager.updateProgress 1 1 100 200 true)
       (state_after (NetworkManager.addBatchRequest false 8 [a_task false false])
          (constructed 4))).
Definition finished_task : RequestTask :=
  set_bSuccess true (set_uiBatchId 1 (set_uiId 1 (a_task false false))).

(** A single task with the retry flag, running; and the same after
    [stopAllRequest]. *)
Definition retry_in_flight : NetworkManagerPrivate := Eval vm_compute in
  state_after (NetworkManager.addRequest (a_task true false)) (constructed 1).
Definition failed_retry_task : RequestTask := set_uiId 1 (a_task true false).


(** *** Notifications that reach their handle *)

(** The reply object is deleted ([qDeleteAll]) in the run. *)
Definition deleted (reply : NetworkReply) (out : list Event) : bool :=
  existsb (λ e, match e with
                | DeleteReply r =>
                    Nat.eqb (reply_addr r) (reply_addr reply)
                    && Bool.eqb (reply_isBatch r) (reply_isBatch reply)
                | _ => false
                end) out.

(** The notifications that reach their reply handle.  A direct call does.  An
    event posted to a handle is delivered by the event loop after the run, and
    [~QObject] removes the events still posted to the object it destroys: the
    event reaches the handle only if the run does not delete the handle
    afterwards. *)
Fixpoint reaching (out : list Event) : list Event :=
  match out with
  | [] => []
  | e :: out' =>
      match e with
      | PostReplyResult reply _ _ =>
          if deleted reply out' then reaching out' else e :: reaching out'
      | ReplyResult _ _ _ => e :: reaching out'
      | _ => reaching out'
      end
  end.

(** *** The steps of the manager *)









(** *** Notions used by the further properties *)

(** The outcome [r] of a continuation, after the effects [out]. *)
Definition prepend {A : Type} (out : list Event) (r : Outcome A) : Outcome A :=
  match r with
  | Done a s o => Done a s (out ++ o)
  | Undefined => Undefined
  | OutOfFuel => OutOfFuel
  end.

(** The tasks of a batch as [addBatchRequest] queues them: the batch id, and
    request ids that follow [n]. *)
Definition stamped (b n : Z) (tasks : list RequestTask) : list RequestTask :=
  imap (λ i t, set_uiId (wrap_u64 (n + Z.of_nat i + 1)) (set_uiBatchId b t)) tasks.

(** The request id counter after [k] allocations. *)
Definition advanced (n : Z) (k : nat) : Z := Nat.iter k (λ c, wrap_u64 (c + 1)) n.

(** A worker slot is free and nothing waits. *)
Definition idle_slot (s : NetworkManagerPrivate) : bool :=
  bool_decide (pool_activeThreadCount (m_pThreadPool s) < pool_maxThreadCount (m_pThreadPool s))
  && bool_decide (m_queWaiting s = []).

(** Every key of the single-task reply map is a request id already allocated. *)
Definition replies_allocated (s : NetworkManagerPrivate) : Prop :=
  ∀ k, is_Some (m_mapReply s !! k) → 0 < k ≤ ms_uiRequestId s.

(** [n] calls of [takeFromWaitQueue], in order. *)
Fixpoint take_all (n : nat) : M (list RequestTask) :=
  match n with
  | O => mret []
  | S n => t ← d.takeFromWaitQueue ; ts ← take_all n ; mret (t :: ts)
  end.

(** Every effect of a computation that returns satisfies [P]. *)
Definition emits {A : Type} (P : Event → Prop) (m : M A) : Prop :=
  ∀ s a s' out, m s = Done a s' out → Forall P out.

(** The workers started by a run. *)
Definition started (out : list Event) : list NetworkRequestThread :=
  omap (λ e, match e with ThreadStarted pThread => Some pThread | _ => None end) out.

(** The workers given up (deleteLater) by a run. *)
Definition discarded (out : list Event) : list NetworkRequestThread :=
  omap (λ e, match e with ThreadDeleteLater pThread => Some pThread | _ => None end) out.

(** The effect neither starts a worker nor gives one up. *)
Definition starts_nothing (e : Event) : Prop :=
  match e with ThreadStarted _ | ThreadDeleteLater _ => False | _ => True end.

(** The state [d.addBatchRequest] leaves. *)
Definition batch_queued (tasks : list RequestTask) (s : NetworkManagerPrivate)
  : NetworkManagerPrivate :=
  let b := wrap_u64 (ms_uiBatchId s + 1) in
  set_m_queWaiting (m_queWaiting s ++ stamped b (ms_uiRequestId s) tasks)
    (set_ms_uiRequestId (advanced (ms_uiRequestId s) (length tasks))
       (set_m_mapBatchReply (<[b := mkNetworkReply (heap_replies s) true]> (m_mapBatchReply s))
          (set_heap_replies (S (heap_replies s))
             (set_m_mapBatchTotalSize
                (<[b := wrap_s32 (Z.of_nat (length tasks))]> (m_mapBatchTotalSize s))
                (set_ms_uiBatchId b s))))).

(** The quit sent to the worker registered for a task, if there is one. *)
Definition released (uiRequestId : Z) (s : NetworkManagerPrivate) : list Event :=
  match m_mapRequestThread s !! uiRequestId with
  | Some pThread => [ThreadQuit pThread]
  | None => []
  end.

(** The result delivered to a reply handle, if there is one. *)
Definition delivered (asyn : bool) (pReply : option NetworkReply) (request : RequestTask)
    (bDestroyed : bool) : list Event :=
  match pReply with
  | Some reply => [notification asyn reply request bDestroyed]
  | None => []
  end.



(** The number of finished members of a batch once one more has succeeded. *)
Definition sizeFinished (batch : Z) (s : NetworkManagerPrivate) : Z :=
  wrap_s32 (qmap_value 0 (m_mapBatchFinishedSize s) batch + 1).

(** The state after the success of a member that completes its batch, and of
    one that does not. *)
Definition batch_completed (uiRequestId batch : Z) (s : NetworkManagerPrivate)
  : NetworkManagerPrivate :=
  set_m_mapRequestThread (delete uiRequestId (m_mapRequestThread s))
    (set_m_mapBatchReply (delete batch (m_mapBatchReply s))
       (set_m_mapBatchFinishedSize (delete batch (m_mapBatchFinishedSize s))
          (set_m_mapBatchTotalSize (delete batch (m_mapBatchTotalSize s)) s))).
Definition batch_advanced (uiRequestId batch : Z) (s : NetworkManagerPrivate)
  : NetworkManagerPrivate :=
  set_m_mapRequestThread (delete uiRequestId (m_mapRequestThread s))
    (set_m_mapBatchFinishedSize
       (<[batch := sizeFinished batch s]> (m_mapBatchFinishedSize s)) s).

(** The state [stopBatchRequests] leaves, and the cancellation it posts. *)
Definition without_batch (b : Z) (s : NetworkManagerPrivate) : NetworkManagerPrivate :=
  mkPrivate (ms_uiRequestId s) (ms_uiBatchId s) (m_bStopAllFlag s) (m_pThreadPool s)
    (filter (λ kv, batchId kv.2 ≠ b) (m_mapRequestThread s))
    (m_mapReply s) (delete b (m_mapBatchReply s))
    (filter (λ t, uiBatchId t ≠ b) (m_queWaiting s))
    (m_queFailed s)
    (delete b (m_mapBatchTotalSize s)) (delete b (m_mapBatchFinishedSize s))
    (delete b (m_mapBatchDownloadCurrentBytes s)) (delete b (m_mapBatchDownloadTotalBytes s))
    (delete b (m_mapBatchUploadCurrentBytes s)) (delete b (m_mapBatchUploadTotalBytes s))
    (heap_replies s).

Definition canceled_batch (b : Z) (s : NetworkManagerPrivate) : list Event :=
  match m_mapBatchReply s !! b with
  | Some reply => [PostReplyResult reply (d.canceled_batch_task b) true]
  | None => []
  end.

(** The entry with the id that comes first in the wait queue is its last entry. *)
Definition first_match_is_last (uiTaskId : Z) (que : list RequestTask) : Prop :=
  ∃ pre t, que = pre ++ [t] ∧ uiId t = uiTaskId ∧ Forall (λ t', uiId t' ≠ uiTaskId) pre.

(** The task [stopRequest] describes in its notification, before it overwrites
    the id, the success flag and the content. *)
Definition stopped_task (uiTaskId : Z) (s : NetworkManagerPrivate) : RequestTask :=
  match d.erase_first uiTaskId (m_queWaiting s) with
  | Some (_, Some next) => next
  | _ => match m_mapRequestThread s !! uiTaskId with
         | Some thread => getTask thread
         | None => RequestTask_default
         end
  end.

(** The state [stopRequest] leaves when it returns, and its effects. *)
Definition without_request (uiTaskId : Z) (s : NetworkManagerPrivate) : NetworkManagerPrivate :=
  mkPrivate (ms_uiRequestId s) (ms_uiBatchId s) (m_bStopAllFlag s) (m_pThreadPool s)
    (delete uiTaskId (m_mapRequestThread s))
    (delete uiTaskId (m_mapReply s)) (m_mapBatchReply s)
    (match d.erase_first uiTaskId (m_queWaiting s) with
     | Some (que', _) => que'
     | None => m_queWaiting s
     end)
    (delete uiTaskId (m_queFailed s))
    (m_mapBatchTotalSize s) (m_mapBatchFinishedSize s)
    (m_mapBatchDownloadCurrentBytes s) (m_mapBatchDownloadTotalBytes s)
    (m_mapBatchUploadCurrentBytes s) (m_mapBatchUploadTotalBytes s)
    (heap_replies s).

Definition stopRequest_effects (uiTaskId : Z) (s : NetworkManagerPrivate) : list Event :=
  match m_mapRequestThread s !! uiTaskId with
  | Some thread => [ThreadQuit thread]
  | None => []
  end ++
  match m_mapReply s !! uiTaskId with
  | Some reply =>
      [PostReplyResult reply
         (set_bytesContent (d.canceled_request_content uiTaskId)
            (set_bSuccess false (set_uiId uiTaskId (stopped_task uiTaskId s)))) true]
  | None => []
  end.

(** The signal a progress report of a batch member raises. *)
Definition batchProgress (bDownload : bool) (uiBatchId uiBytes : Z) : Event :=
  if bDownload then batchDownloadProgress uiBatchId uiBytes
  else batchUploadProgress uiBatchId uiBytes.

(** The signal a progress report of a single task raises. *)
Definition taskProgress (bDownload : bool) (uiTargetId iBytes iTotalBytes : Z) : Event :=
  if bDownload then downloadProgress uiTargetId iBytes iTotalBytes
  else uploadProgress uiTargetId iBytes iTotalBytes.

(** Everything but the byte ledger of one direction is the same in two
    states. *)
Definition same_but_bytes (bDownload : bool) (s s' : NetworkManagerPrivate) : Prop :=
  ms_uiRequestId s' = ms_uiRequestId s ∧ ms_uiBatchId s' = ms_uiBatchId s
  ∧ m_bStopAllFlag s' = m_bStopAllFlag s ∧ m_pThreadPool s' = m_pThreadPool s
  ∧ m_mapRequestThread s' = m_mapRequestThread s ∧ m_mapReply s' = m_mapReply s
  ∧ m_mapBatchReply s' = m_mapBatchReply s ∧ m_queWaiting s' = m_queWaiting s
  ∧ m_queFailed s' = m_queFailed s ∧ m_mapBatchTotalSize s' = m_mapBatchTotalSize s
  ∧ m_mapBatchFinishedSize s' = m_mapBatchFinishedSize s
  ∧ heap_replies s' = heap_replies s
  ∧ currentBytes (negb bDownload) s' = currentBytes (negb bDownload) s
  ∧ totalBytes (negb bDownload) s' = totalBytes (negb bDownload) s.


(** The successful result of the single task 1. *)
Definition finished_single : RequestTask := set_bSuccess true (set_uiId 1 (a_task true false)).

(** * Properties *)

(** ** Running the monad *)

(** Unfolds the binds of a goal and simplifies what they leave. *)
Ltac run_bind := repeat (progress (repeat (unfold mbind || unfold M_bind); cbn)).

Lemma private_eta s :
  mkPrivate (ms_uiRequestId s) (ms_uiBatchId s) (m_bStopAllFlag s) (m_pThreadPool s)
    (m_mapRequestThread s) (m_mapReply s) (m_mapBatchReply s) (m_queWaiting s)
    (m_queFailed s) (m_mapBatchTotalSize s) (m_mapBatchFinishedSize s)
    (m_mapBatchDownloadCurrentBytes s) (m_mapBatchDownloadTotalBytes s)
    (m_mapBatchUploadCurrentBytes s) (m_mapBatchUploadTotalBytes s) (heap_replies s) = s.
Proof. by destruct s. Qed.

Lemma request_eta request :
  mkRequestTask (uiId request) (uiBatchId request) (url request) (bSuccess request)
    (bytesContent request) (bTryAgainWhileFailed request) (bAbortBatchWhileOneFailed request)
  = request.
Proof. by destruct request. Qed.

Lemma for_each_emit {A : Type} (f : A → Event) (l : list A) s :
  for_each l (λ x, emit (f x)) s = Done tt s (f <$> l).
Proof.
  induction l as [|x l IH]; [done|].
  simpl. unfold mbind, M_bind, emit at 1. by rewrite IH.
Qed.

Lemma completes_bind {A B : Type} (m : M A) (k : A → M B) s a s1 out1 :
  m s = Done a s1 out1 → completes (k a) s1 → completes (m ≫= k) s.
Proof.
  intros Em (b & s2 & out2 & Ek). exists b, s2, (out1 ++ out2).
  unfold mbind, M_bind. by rewrite Em, Ek.
Qed.

Section preserves.
Context (P : NetworkManagerPrivate → Prop).

Lemma preserves_ret {A : Type} (a : A) : preserves P (mret a).
Proof. intros s Hs. by exists a, s, []. Qed.

Lemma preserves_bind {A B : Type} (m : M A) (k : A → M B) :
  preserves P m → (∀ a, preserves P (k a)) → preserves P (m ≫= k).
Proof.
  intros Hm Hk s Hs. destruct (Hm s Hs) as (a & s1 & out1 & Em & H1).
  destruct (Hk a s1 H1) as (b & s2 & out2 & Ek & H2).
  exists b, s2, (out1 ++ out2). unfold mbind, M_bind. by rewrite Em, Ek.
Qed.

Lemma preserves_gets {A : Type} (f : NetworkManagerPrivate → A) : preserves P (gets f).
Proof. intros s Hs. by exists (f s), s, []. Qed.

Lemma preserves_modify (f : NetworkManagerPrivate → NetworkManagerPrivate) :
  (∀ s, P s → P (f s)) → preserves P (modify f).
Proof. intros Hf s Hs. exists tt, (f s), []. auto. Qed.

(** A member read and written back: the update may depend on what was read. *)
Lemma preserves_gets_modify {A B : Type} (f : NetworkManagerPrivate → A)
    (g : A → NetworkManagerPrivate → NetworkManagerPrivate) (rest : M B) :
  (∀ s, P s → P (g (f s) s)) → preserves P rest →
  preserves P (a ← gets f ; modify (g a) ;; rest).
Proof.
  intros Hg Hrest s Hs. destruct (Hrest _ (Hg s Hs)) as (b & s' & out & E & Hs').
  exists b, s', out. unfold mbind, M_bind, gets, modify. by rewrite E.
Qed.

Lemma preserves_emit (e : Event) : preserves P (emit e).
Proof. intros s Hs. by exists tt, s, [e]. Qed.

Lemma preserves_for_each {A : Type} (l : list A) (body : A → M unit) :
  (∀ x, preserves P (body x)) → preserves P (for_each l body).
Proof.
  intros Hbody. induction l as [|x l IH]; simpl.
  - apply preserves_ret.
  - apply preserves_bind; auto.
Qed.

Lemma preserves_after {A : Type} (m0 : M unit) (m : M A) s :
  (∃ s1 out0, m0 s = Done tt s1 out0 ∧ P s1) →
  preserves P m →
  ∃ r s' out, (m0 ;; m) s = Done r s' out ∧ P s'.
Proof.
  intros (s1 & out0 & E0 & H1) Hm. destruct (Hm s1 H1) as (r & s' & out & Em & Hs').
  exists r, s', (out0 ++ out). unfold mbind, M_bind. by rewrite E0, Em.
Qed.

End preserves.

Lemma completes_preserves {A : Type} (m : M A) s :
  preserves (λ _, True) m → completes m s.
Proof. intros Hm. destruct (Hm s I) as (a & s' & out & E & _). by exists a, s', out. Qed.

(** One step of a proof that a member function preserves a property. *)
Ltac preserves_step :=
  lazymatch goal with
  | |- preserves _ (mbind (λ a, mbind _ (modify _)) (gets _)) =>
      first [ apply preserves_gets_modify; [intros ? ?; simpl; try done|]
            | apply preserves_bind; [|intros ?] ]
  | |- preserves _ (mbind _ _) => apply preserves_bind; [|intros ?]
  | |- preserves _ (mret _) => apply preserves_ret
  | |- preserves _ (gets _) => apply preserves_gets
  | |- preserves _ (modify _) => apply preserves_modify; intros ? ?; simpl; try done
  | |- preserves _ (emit _) => apply preserves_emit
  | |- preserves _ (for_each _ _) => apply preserves_for_each; intros ?
  | |- preserves _ (if ?c then _ else _) => destruct c
  | |- preserves _ (match ?x with _ => _ end) => destruct x
  | |- preserves _ (let _ := _ in _) => cbv zeta
  end.

Create HintDb members.
#[global] Hint Unfold d.addRequest d.isRequestValid d.newRequestId d.new_NetworkReply
  d.addToWaitQueue d.startRequest d.isThreadAvailable d.isWaitQueueEmpty d.isStopAll
  d.takeFromWaitQueue d.clearFailedQueue d.addToFailedQueue d.getReply d.getBatchReply
  d.killRequestThread d.stopBatchRequests
  NetworkManager.isThreadAvailable NetworkManager.isWaitingRequestEmpty
  NetworkManager.startRequest NetworkManager.waitForIdleThread : members.

(** ** Machine integers and QMap *)

Lemma wrap_u64_small z : 0 ≤ z < 2 ^ 64 → wrap_u64 z = z.
Proof. intros. unfold wrap_u64. apply Z.mod_small. lia. Qed.

Lemma wrap_s64_small z : - 2 ^ 63 ≤ z < 2 ^ 63 → wrap_s64 z = z.
Proof. intros. unfold wrap_s64. rewrite Z.mod_small; lia. Qed.

Lemma wrap_u64_nonneg z : 0 ≤ wrap_u64 z.
Proof. unfold wrap_u64. apply Z.mod_pos_bound. lia. Qed.

Lemma qmap_values_empty {V : Type} : qmap_values (∅ : gmap Z V) = [].
Proof. unfold qmap_values, qmap_items. by rewrite map_to_list_empty. Qed.

Lemma qmap_values_nil {V : Type} (m : gmap Z V) : qmap_values m = [] ↔ m = ∅.
Proof.
  split; [|intros ->; apply qmap_values_empty].
  unfold qmap_values, qmap_items. intros H%fmap_nil_inv.
  apply map_to_list_empty_iff, Permutation_nil_r.
  by rewrite <- (merge_sort_Permutation key_le), H.
Qed.

Lemma elem_of_qmap_values {V : Type} (m : gmap Z V) (v : V) :
  v ∈ qmap_values m ↔ ∃ k, m !! k = Some v.
Proof.
  unfold qmap_values, qmap_items. rewrite list_elem_of_fmap. split.
  - intros ([k v'] & -> & H). rewrite merge_sort_Permutation in H.
    exists k. by apply elem_of_map_to_list.
  - intros [k H]. exists (k, v). split; [done|].
    rewrite merge_sort_Permutation. by apply elem_of_map_to_list.
Qed.

Lemma qmap_last_None {V : Type} (m : gmap Z V) : qmap_last m = None ↔ m = ∅.
Proof. unfold qmap_last. by rewrite last_None, qmap_values_nil. Qed.

Lemma qmap_last_Some {V : Type} (m : gmap Z V) (v : V) :
  qmap_last m = Some v → ∃ k, m !! k = Some v.
Proof.
  unfold qmap_last. intros H%last_Some_elem_of. by apply elem_of_qmap_values.
Qed.

Lemma notifications_app out1 out2 :
  notifications (out1 ++ out2) = notifications out1 ++ notifications out2.
Proof. apply filter_app. Qed.

Lemma notifications_fmap_nil {A : Type} (f : A → Event) (l : list A) :
  (∀ x, is_notification (f x) = false) → notifications (f <$> l) = [].
Proof.
  intros Hf. induction l as [|x l IH]; [done|].
  simpl. unfold notifications in *. rewrite filter_cons_False; [done|].
  rewrite Hf. done.
Qed.

(** ** Batch progress aggregation *)

(** A report of bytes other than 0: the running total of the reported batch
    becomes the total of the batch [ms_uiBatchId] plus the increase. *)
Lemma updateBatchProgress_nonzero t b x dir s :
  x ≠ 0 →
  ∃ s',
    d.updateBatchProgress t b x dir s =
      Done (wrap_s64 (wrap_u64 (qmap_value 0 (totalBytes dir s) (ms_uiBatchId s)
                                + d.increased (qmap_value ∅ (currentBytes dir s) b) t x)))
           s' []
    ∧ currentBytes dir s' =
        <[b := <[t := x]> (qmap_value ∅ (currentBytes dir s) b)]> (currentBytes dir s)
    ∧ totalBytes dir s' =
        <[b := wrap_s64 (wrap_u64 (qmap_value 0 (totalBytes dir s) (ms_uiBatchId s)
                                   + d.increased (qmap_value ∅ (currentBytes dir s) b) t x))]>
          (totalBytes dir s)
    ∧ currentBytes (negb dir) s' = currentBytes (negb dir) s
    ∧ totalBytes (negb dir) s' = totalBytes (negb dir) s
    ∧ ms_uiBatchId s' = ms_uiBatchId s.
Proof.
  intros Hx. unfold d.updateBatchProgress.
  rewrite bool_decide_eq_false_2 by done.
  destruct dir; run_bind; eexists; repeat split.
Qed.

Lemma updateBatchProgress_zero t b dir s :
  ∃ s',
    d.updateBatchProgress t b 0 dir s = Done (qmap_value 0 (totalBytes dir s) b) s' []
    ∧ totalBytes dir s' = <[b := qmap_value 0 (totalBytes dir s) b]> (totalBytes dir s)
    ∧ currentBytes dir s' = currentBytes dir s
    ∧ currentBytes (negb dir) s' = currentBytes (negb dir) s
    ∧ totalBytes (negb dir) s' = totalBytes (negb dir) s
    ∧ ms_uiBatchId s' = ms_uiBatchId s.
Proof.
  unfold d.updateBatchProgress. rewrite bool_decide_eq_true_2 by done.
  destruct dir; run_bind; eexists; repeat split.
Qed.

Lemma increased_nonneg m t x : 0 ≤ d.increased m t x.
Proof.
  unfold d.increased. destruct (m !! t); [case_bool_decide|];
    auto using wrap_u64_nonneg; lia.
Qed.

Lemma latest_sum_empty : latest_sum ∅ = 0.
Proof. apply map_fold_empty. Qed.

Lemma latest_sum_insert_fresh m t x :
  m !! t = None → latest_sum (<[t := x]> m) = x + latest_sum m.
Proof. intros. unfold latest_sum. rewrite map_fold_insert_L; [done| intros; lia | done]. Qed.

Lemma latest_sum_insert m t x :
  latest_sum (<[t := x]> m) = latest_sum m - default 0 (m !! t) + x.
Proof.
  destruct (m !! t) as [v|] eqn:E; simpl.
  - rewrite <- (insert_delete_eq m t x).
    rewrite latest_sum_insert_fresh by apply lookup_delete_eq.
    rewrite <- (insert_delete_id m t v) at 2 by done.
    rewrite latest_sum_insert_fresh by apply lookup_delete_eq. lia.
  - rewrite latest_sum_insert_fresh by done. lia.
Qed.

Lemma latest_sum_nonneg m : latest_nonneg m → 0 ≤ latest_sum m.
Proof.
  unfold latest_nonneg. induction m as [|t v m Hm IH] using map_ind; intros H.
  - rewrite latest_sum_empty. lia.
  - rewrite latest_sum_insert_fresh by done.
    apply map_Forall_insert in H as [? ?]; [|done]. specialize (IH ltac:(done)). lia.
Qed.

Lemma latest_nonneg_insert m t x : latest_nonneg m → 0 ≤ x → latest_nonneg (<[t := x]> m).
Proof. intros. by apply map_Forall_insert_2. Qed.

Lemma latest_sum_others_nonneg m t :
  latest_nonneg m → 0 ≤ latest_sum m - default 0 (m !! t).
Proof.
  intros H. destruct (m !! t) as [v|] eqn:E; simpl.
  - rewrite <- (insert_delete_id m t v) at 1 by done.
    rewrite latest_sum_insert_fresh by apply lookup_delete_eq.
    assert (0 ≤ latest_sum (delete t m)); [|lia].
    apply latest_sum_nonneg. intros k w Hk. apply lookup_delete_Some in Hk as [_ Hk].
    by apply (H k w).
  - pose proof (latest_sum_nonneg m H). lia.
Qed.

(** A report for another batch, or in the other direction, leaves the ledger
    of [b] in direction [dir] as it is. *)
Lemma report_frame dir b r s :
  concerns dir b r = false →
  ∃ v s', report r s = Done v s' []
    ∧ qmap_value 0 (totalBytes dir s') b = qmap_value 0 (totalBytes dir s) b
    ∧ qmap_value ∅ (currentBytes dir s') b = qmap_value ∅ (currentBytes dir s) b
    ∧ ms_uiBatchId s' = ms_uiBatchId s.
Proof.
  unfold concerns, report. intros Hc.
  assert (rBatch r ≠ b ∨ dir = negb (rDownload r)) as Hne.
  { apply andb_false_iff in Hc as [Hc|Hc]; apply bool_decide_eq_false in Hc; [by left|right].
    destruct dir, (rDownload r); done. }
  assert (dir ≠ rDownload r → dir = negb (rDownload r)) as Hother.
  { destruct dir, (rDownload r); done. }
  destruct (decide (rBytes r = 0)) as [E|E].
  - rewrite E.
    destruct (updateBatchProgress_zero (rTask r) (rBatch r) (rDownload r) s)
      as (s' & -> & Ht & Hc1 & Hc2 & Ht2 & Hb).
    eexists _, s'. split; [done|]. split_and!; [| |done].
    + destruct Hne as [Hne| ->]; [|by rewrite Ht2].
      destruct (decide (dir = rDownload r)) as [->|Hd].
      * rewrite Ht. unfold qmap_value at 1. by rewrite lookup_insert_ne.
      * rewrite (Hother Hd). by rewrite Ht2.
    + destruct (decide (dir = rDownload r)) as [->|Hd]; [by rewrite Hc1|].
      rewrite (Hother Hd). by rewrite Hc2.
  - destruct (updateBatchProgress_nonzero (rTask r) (rBatch r) (rBytes r) (rDownload r) s E)
      as (s' & -> & Hc1 & Ht & Hc2 & Ht2 & Hb).
    eexists _, s'. split; [done|]. split_and!; [| |done].
    + destruct Hne as [Hne| ->]; [|by rewrite Ht2].
      destruct (decide (dir = rDownload r)) as [->|Hd].
      * rewrite Ht. unfold qmap_value at 1. by rewrite lookup_insert_ne.
      * rewrite (Hother Hd). by rewrite Ht2.
    + destruct Hne as [Hne| ->]; [|by rewrite Hc2].
      destruct (decide (dir = rDownload r)) as [->|Hd].
      * rewrite Hc1. unfold qmap_value at 1. by rewrite lookup_insert_ne.
      * rewrite (Hother Hd). by rewrite Hc2.
Qed.

Lemma report_all_cons r rs s :
  report_all (r :: rs) s =
  match report r s with
  | Done _ s1 out1 =>
      match report_all rs s1 with
      | Done _ s2 out2 => Done tt s2 (out1 ++ out2)
      | Undefined => Undefined
      | OutOfFuel => OutOfFuel
      end
  | Undefined => Undefined
  | OutOfFuel => OutOfFuel
  end.
Proof.
  unfold report_all. simpl. unfold mbind, M_bind, mret, M_ret.
  destruct (report r s) as [v s1 out1| |]; [|done..]. simpl.
  rewrite app_nil_r.
  by destruct (for_each rs _ s1) as [[] ? ?| |].
Qed.

(** Claim C1.  A report of [x > 0] bytes for task [t] of batch [b] should add
    the increase to the running total of [b] itself.  The code reads the total
    of the batch [ms_uiBatchId], the one allocated last, instead.  With
    batches 1 and 2 submitted, task 1 of batch 1 reports 100 and then 150
    bytes: the second report increases by 50, and the total recorded and
    returned for batch 1 is 50, the total of batch 2 (none, 0) plus 50, where
    150 is expected.  The last value of the task is recorded as 150.  The
    upload direction behaves the same. *)
Theorem updateBatchProgress_uses_newest_batch :
  ms_uiBatchId two_batches = 2
  ∧ (∃ s1 s2,
       d.updateBatchProgress 1 1 100 true two_batches = Done 100 s1 []
       ∧ m_mapBatchDownloadTotalBytes s1 !! 1 = Some 100
       ∧ d.increased (qmap_value ∅ (m_mapBatchDownloadCurrentBytes s1) 1) 1 150 = 50
       ∧ d.updateBatchProgress 1 1 150 true s1 = Done 50 s2 []
       ∧ m_mapBatchDownloadTotalBytes s2 !! 1 = Some 50
       ∧ m_mapBatchDownloadCurrentBytes s2 !! 1 = Some {[1 := 150]})
  ∧ (∃ s1 s2,
       d.updateBatchProgress 1 1 100 false two_batches = Done 100 s1 []
       ∧ d.updateBatchProgress 1 1 150 false s1 = Done 50 s2 []
       ∧ m_mapBatchUploadTotalBytes s2 !! 1 = Some 50
       ∧ m_mapBatchUploadCurrentBytes s2 !! 1 = Some {[1 := 150]}).
Proof.
  split; [reflexivity|]. split.
  - eexists _, _. split; [vm_compute; reflexivity|]. repeat split; vm_compute; reflexivity.
  - eexists _, _. split; [vm_compute; reflexivity|]. repeat split; vm_compute; reflexivity.
Qed.

Lemma rise_nonneg last x : 0 ≤ rise last x.
Proof. unfold rise. case_bool_decide; lia. Qed.

Lemma rise_le last x : 0 ≤ last → 0 ≤ x → rise last x ≤ x.
Proof. unfold rise. case_bool_decide; lia. Qed.

Lemma increased_rise m t x :
  latest_nonneg m → 0 < x < 2 ^ 63 →
  d.increased m t x = rise (default 0 (m !! t)) x.
Proof.
  intros Hnn Hx. unfold d.increased, rise.
  destruct (m !! t) as [v|] eqn:E; simpl.
  - pose proof (Hnn _ _ E). simpl in *. case_bool_decide; [|done].
    apply wrap_u64_small. lia.
  - rewrite bool_decide_eq_true_2 by lia. rewrite wrap_u64_small; lia.
Qed.

Lemma climbed_nonneg dir b rs : ∀ m, 0 ≤ climbed dir b m rs.
Proof.
  induction rs as [|r rs IH]; intros m; simpl; [lia|].
  destruct (concerns dir b r); [|done].
  pose proof (rise_nonneg (default 0 (m !! rTask r)) (rBytes r)).
  specialize (IH (<[rTask r := rBytes r]> m)). lia.
Qed.

Lemma climbed_app dir b rs1 rs2 : ∀ m,
  climbed dir b m (rs1 ++ rs2)
  = climbed dir b m rs1 + climbed dir b (latest dir b m rs1) rs2.
Proof.
  induction rs1 as [|r rs1 IH]; intros m; simpl; [done|].
  destruct (concerns dir b r); rewrite IH; lia.
Qed.

Lemma climbed_le_reported dir b rs : ∀ m,
  latest_nonneg m → positive dir b rs → climbed dir b m rs ≤ reported dir b rs.
Proof.
  induction rs as [|r rs IH]; intros m Hnn Hpos; simpl; [lia|].
  apply Forall_cons in Hpos as [Hr Hpos].
  destruct (concerns dir b r); [|by apply IH].
  specialize (Hr eq_refl).
  assert (0 ≤ default 0 (m !! rTask r)) as Hl.
  { destruct (m !! rTask r) as [v|] eqn:E; simpl; [by apply (Hnn _ _ E)|lia]. }
  pose proof (rise_le _ (rBytes r) Hl ltac:(lia)).
  specialize (IH (<[rTask r := rBytes r]> m)).
  pose proof (IH ltac:(apply latest_nonneg_insert; [done|lia]) Hpos). lia.
Qed.

Lemma reported_nonneg dir b rs : positive dir b rs → 0 ≤ reported dir b rs.
Proof.
  induction 1 as [|r rs Hr _ IH]; simpl; [lia|].
  destruct (concerns dir b r); [|done]. specialize (Hr eq_refl). lia.
Qed.

(** The sum of the values last reported never exceeds the sum of the values
    recorded before plus the rises. *)
Lemma latest_sum_le_climbed dir b rs : ∀ m,
  latest_nonneg m → positive dir b rs →
  latest_sum (latest dir b m rs) ≤ latest_sum m + climbed dir b m rs.
Proof.
  induction rs as [|r rs IH]; intros m Hnn Hpos; simpl; [lia|].
  apply Forall_cons in Hpos as [Hr Hpos].
  destruct (concerns dir b r); [|by apply IH].
  specialize (Hr eq_refl).
  pose proof (IH (<[rTask r := rBytes r]> m)
                ltac:(apply latest_nonneg_insert; [done|lia]) Hpos) as H.
  rewrite latest_sum_insert in H. unfold rise. case_bool_decide; lia.
Qed.

(** They are equal when no report falls below the value recorded. *)
Lemma latest_sum_climbed_rising dir b rs : ∀ m,
  rising dir b m rs →
  latest_sum (latest dir b m rs) = latest_sum m + climbed dir b m rs.
Proof.
  induction rs as [|r rs IH]; intros m Hr; simpl in *; [lia|].
  destruct (concerns dir b r); [|by apply IH].
  destruct Hr as [Hle Hr]. rewrite (IH _ Hr), latest_sum_insert.
  unfold rise. case_bool_decide; lia.
Qed.

(** One report for the newest batch: the rise is added to its total. *)
Lemma report_rise dir b r s :
  concerns dir b r = true →
  ms_uiBatchId s = b →
  latest_nonneg (qmap_value ∅ (currentBytes dir s) b) →
  0 ≤ qmap_value 0 (totalBytes dir s) b →
  0 < rBytes r →
  qmap_value 0 (totalBytes dir s) b + rBytes r < 2 ^ 63 →
  let total := qmap_value 0 (totalBytes dir s) b
               + rise (default 0 (qmap_value ∅ (currentBytes dir s) b !! rTask r)) (rBytes r) in
  ∃ s', report r s = Done total s' []
    ∧ qmap_value ∅ (currentBytes dir s') b
      = <[rTask r := rBytes r]> (qmap_value ∅ (currentBytes dir s) b)
    ∧ qmap_value 0 (totalBytes dir s') b = total
    ∧ ms_uiBatchId s' = ms_uiBatchId s.
Proof.
  unfold concerns, report.
  intros [Hb Hd]%andb_true_iff Hnew Hnn HT Hpos Hbound.
  apply bool_decide_eq_true in Hb, Hd. subst dir.
  set (m := qmap_value ∅ (currentBytes (rDownload r) s) b) in *.
  destruct (updateBatchProgress_nonzero (rTask r) (rBatch r) (rBytes r) (rDownload r) s)
    as (s' & Hrun & Hc & Ht & _ & _ & Hid); [lia|].
  rewrite Hb in *. fold m in Hrun, Hc, Ht. rewrite Hnew in Hrun, Ht.
  rewrite increased_rise in Hrun, Ht by (done || lia).
  assert (0 ≤ default 0 (m !! rTask r)) as Hl.
  { destruct (m !! rTask r) as [v|] eqn:E; simpl; [by apply (Hnn _ _ E)|lia]. }
  pose proof (rise_nonneg (default 0 (m !! rTask r)) (rBytes r)).
  pose proof (rise_le _ (rBytes r) Hl ltac:(lia)).
  rewrite wrap_u64_small, wrap_s64_small in Hrun, Ht by lia.
  exists s'. split; [done|]. split_and!; [| |done].
  - rewrite Hc. unfold qmap_value at 1. by rewrite lookup_insert_eq.
  - rewrite Ht. unfold qmap_value at 1. by rewrite lookup_insert_eq.
Qed.

Lemma report_all_climbed dir b rs : ∀ s,
  ms_uiBatchId s = b →
  latest_nonneg (qmap_value ∅ (currentBytes dir s) b) →
  0 ≤ qmap_value 0 (totalBytes dir s) b →
  positive dir b rs →
  qmap_value 0 (totalBytes dir s) b + reported dir b rs < 2 ^ 63 →
  ∃ s', report_all rs s = Done tt s' []
    ∧ qmap_value ∅ (currentBytes dir s') b
      = latest dir b (qmap_value ∅ (currentBytes dir s) b) rs
    ∧ qmap_value 0 (totalBytes dir s') b
      = qmap_value 0 (totalBytes dir s) b
        + climbed dir b (qmap_value ∅ (currentBytes dir s) b) rs.
Proof.
  induction rs as [|r rs IH]; intros s Hnew Hnn HT Hpos Hbound.
  - exists s. split_and!; [done|done|simpl; lia].
  - rewrite report_all_cons. simpl in Hbound |- *.
    apply Forall_cons in Hpos as [Hr Hpos].
    pose proof (reported_nonneg dir b rs Hpos) as Hrest.
    destruct (concerns dir b r) eqn:Hc.
    + specialize (Hr eq_refl).
      destruct (report_rise dir b r s Hc Hnew Hnn HT Hr ltac:(lia))
        as (s1 & -> & Hcur & Htot & Hid).
      pose proof (rise_nonneg (default 0 (qmap_value ∅ (currentBytes dir s) b !! rTask r))
                    (rBytes r)) as Hge.
      assert (rise (default 0 (qmap_value ∅ (currentBytes dir s) b !! rTask r)) (rBytes r)
              ≤ rBytes r) as Hle.
      { apply rise_le; [|lia].
        destruct (qmap_value ∅ (currentBytes dir s) b !! rTask r) as [v|] eqn:E; simpl;
          [by apply (Hnn _ _ E)|lia]. }
      destruct (IH s1) as (s2 & -> & Hcur2 & Htot2).
      * congruence.
      * rewrite Hcur. apply latest_nonneg_insert; [done|lia].
      * rewrite Htot. lia.
      * done.
      * rewrite Htot. lia.
      * exists s2. split; [done|]. rewrite Hcur2, Htot2, Hcur, Htot. split; [done|lia].
    + destruct (report_frame dir b r s Hc) as (v & s1 & -> & Ht & Hcur & Hid).
      destruct (IH s1) as (s2 & -> & Hcur2 & Htot2).
      * congruence.
      * by rewrite Hcur.
      * by rewrite Ht.
      * done.
      * by rewrite Ht.
      * exists s2. by rewrite Hcur2, Htot2, Hcur, Ht.
Qed.

(** Claim C4, as the code has it.  For the batch allocated last, after any
    sequence of reports, to this or other batches and in either direction, in
    which the reports for the batch carry positive bytes (and the total plus
    the bytes reported fits [qint64]): the values recorded are the last ones
    reported, and the total of the batch is its total before plus the sum of
    the rises, where a report that exceeds the value last reported for its
    task rises by the difference and any other report by 0.  So every increase
    is at least 0 and the total never decreases, after any part of the
    sequence.  When the total was the sum of the values recorded, it is at
    least the sum of the values last reported, and it is that sum when no
    report falls below the value last reported for its task. *)
Theorem batch_total_is_sum_of_rises dir b rs s :
  ms_uiBatchId s = b →
  latest_nonneg (qmap_value ∅ (currentBytes dir s) b) →
  0 ≤ qmap_value 0 (totalBytes dir s) b →
  positive dir b rs →
  qmap_value 0 (totalBytes dir s) b + reported dir b rs < 2 ^ 63 →
  let m := qmap_value ∅ (currentBytes dir s) b in
  ∃ s', report_all rs s = Done tt s' []
    ∧ qmap_value ∅ (currentBytes dir s') b = latest dir b m rs
    ∧ qmap_value 0 (totalBytes dir s') b
      = qmap_value 0 (totalBytes dir s) b + climbed dir b m rs
    ∧ (∀ last x, 0 ≤ rise last x ∧ (x ≤ last → rise last x = 0))
    ∧ (∀ rs1 rs2, rs = rs1 ++ rs2 →
         ∃ s1, report_all rs1 s = Done tt s1 []
           ∧ qmap_value 0 (totalBytes dir s) b ≤ qmap_value 0 (totalBytes dir s1) b
             ≤ qmap_value 0 (totalBytes dir s') b)
    ∧ (aggregate_is_sum_of_latest dir b s →
       latest_sum (latest dir b m rs) ≤ qmap_value 0 (totalBytes dir s') b
       ∧ (rising dir b m rs → aggregate_is_sum_of_latest dir b s')).
Proof.
  intros Hnew Hnn HT Hpos Hbound m.
  destruct (report_all_climbed dir b rs s Hnew Hnn HT Hpos Hbound) as (s' & Hrun & Hcur & Htot).
  fold m in Hcur, Htot.
  exists s'. split_and!; [done|done|done| | |].
  - intros last x. split; [apply rise_nonneg|]. intros Hle. unfold rise.
    by rewrite bool_decide_eq_false_2 by lia.
  - intros rs1 rs2 ->.
    apply Forall_app in Hpos as [Hpos1 Hpos2].
    assert (reported dir b (rs1 ++ rs2) = reported dir b rs1 + reported dir b rs2) as Hsplit.
    { clear. induction rs1 as [|r rs1 IH]; simpl; [done|].
      destruct (concerns dir b r); lia. }
    pose proof (reported_nonneg dir b rs2 Hpos2).
    destruct (report_all_climbed dir b rs1 s Hnew Hnn HT Hpos1 ltac:(lia))
      as (s1 & Hrun1 & _ & Htot1).
    exists s1. split; [done|]. fold m in Htot1. rewrite Htot1, Htot, climbed_app.
    pose proof (climbed_nonneg dir b rs1 m).
    pose proof (climbed_nonneg dir b rs2 (latest dir b m rs1)). lia.
  - unfold aggregate_is_sum_of_latest. fold m. intros Hagg. split.
    + rewrite Htot, Hagg. by apply latest_sum_le_climbed.
    + intros Hrising. rewrite Htot, Hcur, Hagg. symmetry. by apply latest_sum_climbed_rising.
Qed.

Lemma batch_total_is_sum_of_rises_witness :
  ∃ s', report_all [mkReport 1 1 100 true; mkReport 2 1 50 true; mkReport 7 3 30 false;
                    mkReport 1 1 80 true; mkReport 1 1 90 true] one_batch = Done tt s' []
    ∧ qmap_value 0 (totalBytes true s') 1 = 160
    ∧ qmap_value ∅ (currentBytes true s') 1 = {[1 := 90; 2 := 50]}.
Proof.
  destruct (batch_total_is_sum_of_rises true 1
              [mkReport 1 1 100 true; mkReport 2 1 50 true; mkReport 7 3 30 false;
               mkReport 1 1 80 true; mkReport 1 1 90 true] one_batch)
    as (s' & Hrun & Hcur & Htot & _).
  - reflexivity.
  - intros k v Hk. vm_compute in Hk. discriminate.
  - vm_compute. discriminate.
  - repeat constructor; vm_compute; intros; try discriminate; reflexivity.
  - vm_compute. reflexivity.
  - exists s'. split; [exact Hrun|]. split.
    + rewrite Htot. vm_compute. reflexivity.
    + rewrite Hcur. vm_compute. reflexivity.
Defined.

(** Claim C4, as stated, fails.  In a single batch, task 1 reports 100, then
    80, then 90 bytes: the increases are 100, 0 and 10, so the total is 110.
    The value last reported by the task is 90, and it is the value recorded;
    the largest value it reported is 100.  The total is neither. *)
Lemma batch_total_not_sum_of_latest :
  ∃ s3, report_all dipping_reports one_batch = Done tt s3 []
    ∧ qmap_value 0 (totalBytes true s3) 1 = 110
    ∧ qmap_value ∅ (currentBytes true s3) 1 = latest true 1 ∅ dipping_reports
    ∧ latest_sum (latest true 1 ∅ dipping_reports) = 90
    ∧ latest_sum (highest true 1 ∅ dipping_reports) = 100
    ∧ ¬ aggregate_is_sum_of_latest true 1 s3.
Proof.
  eexists. split; [vm_compute; reflexivity|].
  split; [vm_compute; reflexivity|]. split; [vm_compute; reflexivity|].
  split; [vm_compute; reflexivity|]. split; [vm_compute; reflexivity|].
  vm_compute. discriminate.
Qed.

(** Claim C8, as the code has it.  [updateBatchProgress] with 0 bytes returns
    the running total of the batch (0 when it has none); no value read from
    the running totals changes, the last recorded values and the other
    direction are untouched, and when the batch has a running total the state
    is the same.  A report of 0 bytes handled by [updateProgress] is dropped:
    same state, nothing emitted. *)
Theorem zero_report_is_query t b dir s :
  ∃ s', d.updateBatchProgress t b 0 dir s = Done (qmap_value 0 (totalBytes dir s) b) s' []
    ∧ (∀ b', qmap_value 0 (totalBytes dir s') b' = qmap_value 0 (totalBytes dir s) b')
    ∧ currentBytes dir s' = currentBytes dir s
    ∧ currentBytes (negb dir) s' = currentBytes (negb dir) s
    ∧ totalBytes (negb dir) s' = totalBytes (negb dir) s
    ∧ (is_Some (totalBytes dir s !! b) → s' = s)
    ∧ ∀ iTotalBytes, NetworkManager.updateProgress t b 0 iTotalBytes dir s = Done tt s [].
Proof.
  unfold d.updateBatchProgress. rewrite bool_decide_eq_true_2 by done.
  destruct dir; run_bind; eexists; (split; [reflexivity|]); simpl; split_and!; try done.
  - intros b'. unfold qmap_value. destruct (decide (b = b')) as [->|].
    + by rewrite lookup_insert_eq.
    + by rewrite lookup_insert_ne.
  - intros [v Hv]. unfold qmap_value.
    rewrite Hv. simpl. rewrite insert_id by done. apply private_eta.
  - intros b'. unfold qmap_value. destruct (decide (b = b')) as [->|].
    + by rewrite lookup_insert_eq.
    + by rewrite lookup_insert_ne.
  - intros [v Hv]. unfold qmap_value.
    rewrite Hv. simpl. rewrite insert_id by done. apply private_eta.
Qed.

Lemma zero_report_is_query_witness :
  ∃ s1, d.updateBatchProgress 1 1 100 true one_batch = Done 100 s1 []
    ∧ d.updateBatchProgress 1 1 0 true s1 = Done 100 s1 [].
Proof.
  eexists. split; [vm_compute; reflexivity|].
  destruct (zero_report_is_query 1 1 true
              (state_after (d.updateBatchProgress 1 1 100 true) one_batch))
    as (s' & Hrun & _ & _ & _ & _ & Hsame & _).
  rewrite (Hsame ltac:(vm_compute; eauto)) in Hrun. exact Hrun.
Defined.

(** Claim C8, as stated, fails.  Batch 1 has no running total yet; a report of
    0 bytes given to [updateBatchProgress] returns 0 and creates the entry
    [1 := 0] in the download totals. *)
Lemma zero_report_creates_entry :
  ∃ s', d.updateBatchProgress 1 1 0 true one_batch = Done 0 s' []
    ∧ m_mapBatchDownloadTotalBytes one_batch !! 1 = None
    ∧ m_mapBatchDownloadTotalBytes s' !! 1 = Some 0
    ∧ s' ≠ one_batch.
Proof.
  eexists. split; [vm_compute; reflexivity|].
  split; [reflexivity|]. split; [reflexivity|].
  intros H. apply (f_equal (λ s, m_mapBatchDownloadTotalBytes s !! 1)) in H.
  vm_compute in H. discriminate.
Qed.

(** ** Cancellation of everything *)

Lemma stopAllRequest_running s :
  m_bStopAllFlag s = false →
  d.stopAllRequest s =
  Done tt (stopped s)
    ((ThreadQuit <$> qmap_values (m_mapRequestThread s)) ++ canceled_all s
       ++ (DeleteReply <$> qmap_values (m_mapReply s))
       ++ (DeleteReply <$> qmap_values (m_mapBatchReply s))).
Proof.
  intros Hflag. unfold d.stopAllRequest, canceled_all, d.reset, d.resetData.
  run_bind. rewrite Hflag. run_bind. rewrite for_each_emit. run_bind.
  destruct (qmap_last (m_mapReply s)) as [reply|] eqn:Hlast.
  - assert (qmap_isEmpty (m_mapReply s) = false) as ->.
    { apply bool_decide_eq_false. intros H%qmap_last_None. congruence. }
    run_bind. rewrite ?for_each_emit. run_bind. rewrite ?for_each_emit.
    by rewrite !app_nil_r.
  - assert (qmap_isEmpty (m_mapReply s) = true) as ->.
    { apply bool_decide_eq_true. by apply qmap_last_None. }
    run_bind. rewrite ?for_each_emit. run_bind. rewrite ?for_each_emit.
    by rewrite !app_nil_r.
Qed.

Lemma stopAllRequest_stopped s :
  m_bStopAllFlag s = true → d.stopAllRequest s = Done tt s [].
Proof. intros H. unfold d.stopAllRequest. run_bind. by rewrite H. Qed.

(** ** Pool capacity *)

(** Claim C6, as the code has it.  [setMaxThreadCount n] returns true and
    sets the capacity to [n] when [1 <= n <= 8]; otherwise it returns false and
    leaves the state as it is; so it keeps a capacity that is in [1, 8] there.
    [initialize] sets the capacity to the ideal thread count of the machine,
    or to 4 when that is unknown (-1). *)
Theorem setMaxThreadCount_range s nMax :
  ∃ ok s', d.setMaxThreadCount nMax s = Done ok s' []
    ∧ (1 ≤ nMax ≤ 8 → ok = true ∧ capacity s' = nMax)
    ∧ (¬ (1 ≤ nMax ≤ 8) → ok = false ∧ s' = s)
    ∧ (1 ≤ capacity s ≤ 8 → 1 ≤ capacity s' ≤ 8)
    ∧ ∀ nIdeal, ∃ s0, d.initialize nIdeal s = Done tt s0 []
        ∧ capacity s0 = (if bool_decide (nIdeal = -1) then 4 else nIdeal).
Proof.
  unfold d.setMaxThreadCount, d.initialize, capacity.
  destruct (decide (1 ≤ nMax ≤ 8)) as [Hin|Hout].
  - rewrite !bool_decide_eq_true_2 by lia. run_bind.
    eexists _, _. split; [done|]. simpl. split_and!; try done; try lia.
    intros nIdeal. case_bool_decide; subst.
    + rewrite bool_decide_eq_false_2 by lia. eexists; split; done.
    + rewrite bool_decide_eq_true_2 by lia. eexists; split; done.
  - assert (bool_decide (nMax >= 1) && bool_decide (nMax <= 8) = false) as ->.
    { apply andb_false_iff. rewrite !bool_decide_eq_false. lia. }
    run_bind. eexists _, _. split; [done|]. split_and!; try done.
    intros nIdeal. case_bool_decide; subst.
    + rewrite bool_decide_eq_false_2 by lia. eexists; split; done.
    + rewrite bool_decide_eq_true_2 by lia. eexists; split; done.
Qed.

Lemma setMaxThreadCount_range_witness :
  ∃ s', d.setMaxThreadCount 9 (constructed 4) = Done false s' [] ∧ 1 ≤ capacity s' ≤ 8.
Proof.
  destruct (setMaxThreadCount_range (constructed 4) 9) as (ok & s' & Hrun & _ & Hout & Hkeep & _).
  destruct Hout as [-> ->]; [lia|].
  exists (constructed 4). split; [exact Hrun|]. apply Hkeep. vm_compute. split; discriminate.
Defined.

(** Claim C6, as stated, fails.  On a machine with 16 hardware threads
    [initialize] sets the capacity to 16. *)
Lemma initialize_exceeds_range :
  ∃ s', d.initialize 16 (constructed 16) = Done tt s' []
    ∧ NetworkManager.maxThreadCount s' = Done 16 s' []
    ∧ ¬ (1 ≤ capacity s' ≤ 8).
Proof.
  eexists. split; [vm_compute; reflexivity|]. split; [reflexivity|].
  vm_compute. intros [_ H]. by apply H.
Qed.

(** ** Submission of one task *)

(** Claim C7.  [addRequest] with an invalid locator returns no reply handle;
    the request id counter, the reply map, the wait queue, the worker map and
    the number of reply objects are as before, and so is the task: only the
    stop flag is cleared. *)
Theorem addRequest_invalid_url s request :
  url_isValid (url request) = false →
  ∃ s', NetworkManager.addRequest request s = Done (None, request) s' []
    ∧ s' = set_m_bStopAllFlag false s
    ∧ ms_uiRequestId s' = ms_uiRequestId s
    ∧ heap_replies s' = heap_replies s
    ∧ m_mapReply s' = m_mapReply s
    ∧ m_queWaiting s' = m_queWaiting s
    ∧ m_mapRequestThread s' = m_mapRequestThread s.
Proof.
  intros Hurl. unfold NetworkManager.addRequest, d.addRequest, d.resetStopAllFlag,
    d.isRequestValid.
  rewrite Hurl. run_bind. rewrite request_eta.
  destruct (m_bStopAllFlag s) eqn:Hflag; run_bind.
  - by eexists.
  - exists s. split_and!; try done. simpl. rewrite <- Hflag. symmetry. apply private_eta.
Qed.

Lemma addRequest_invalid_url_witness :
  ∃ s', NetworkManager.addRequest (mkRequestTask 0 0 (mkQUrl "" false) false "" true false)
          one_batch
        = Done (None, mkRequestTask 0 0 (mkQUrl "" false) false "" true false) s' []
    ∧ ms_uiRequestId s' = 2 ∧ m_mapReply s' = ∅.
Proof.
  destruct (addRequest_invalid_url one_batch
              (mkRequestTask 0 0 (mkQUrl "" false) false "" true false))
    as (s' & Hrun & _ & Hid & _ & Hreply & _); [reflexivity|].
  exists s'. split; [exact Hrun|]. split; [exact Hid|exact Hreply].
Defined.

Lemma resetStopAllFlag_running s :
  ∃ s1 out0, d.resetStopAllFlag s = Done tt s1 out0 ∧ running s1.
Proof.
  unfold d.resetStopAllFlag, running. run_bind.
  destruct (m_bStopAllFlag s) eqn:E; eexists _, _; split; done.
Qed.

(** Claim C9.  Every call of [addRequest] returns, whatever the locator, and
    [isStopAll] is false afterwards. *)
Theorem addRequest_clears_stop_flag s request :
  ∃ r s' out, NetworkManager.addRequest request s = Done r s' out
    ∧ d.isStopAll s' = Done false s' [].
Proof.
  cut (∃ r s' out, NetworkManager.addRequest request s = Done r s' out ∧ running s').
  { intros (r & s' & out & Hrun & Hs'). exists r, s', out. split; [done|].
    unfold d.isStopAll, gets. by rewrite Hs'. }
  unfold NetworkManager.addRequest. apply preserves_after.
  - apply resetStopAllFlag_running.
  - autounfold with members. repeat preserves_step.
Qed.

(** ** Cancellation of one task *)

Lemma erase_first_last uiTaskId que t :
  uiId t = uiTaskId →
  (∀ t', t' ∈ que → uiId t' ≠ uiTaskId) →
  d.erase_first uiTaskId (que ++ [t]) = Some (que, None).
Proof.
  intros Ht. induction que as [|t0 que IH]; intros Hque; simpl.
  - by rewrite bool_decide_eq_true_2.
  - rewrite bool_decide_eq_false_2 by (apply Hque; left).
    rewrite IH; [done|]. intros t' Ht'. apply Hque. by right.
Qed.

(** Claim C10.  The read after the erase should be in bounds.  When the entry
    with the id is the last of the wait queue, [erase] returns [end()], the
    read has nothing to read, and [stopRequest] has undefined behaviour. *)
Theorem stopRequest_last_entry_reads_end s uiTaskId que t :
  m_queWaiting s = que ++ [t] →
  uiId t = uiTaskId →
  (∀ t', t' ∈ que → uiId t' ≠ uiTaskId) →
  d.erase_first uiTaskId (m_queWaiting s) = Some (que, None)
  ∧ d.stopRequest uiTaskId s = Undefined.
Proof.
  intros Hq Ht Hque. pose proof (erase_first_last uiTaskId que t Ht Hque) as He.
  rewrite Hq. split; [done|].
  unfold d.stopRequest. run_bind.
  destruct (m_mapRequestThread s !! uiTaskId); run_bind; by rewrite Hq, He.
Qed.

Lemma stopRequest_last_entry_reads_end_witness :
  m_queWaiting two_submitted = [set_uiId 2 (a_task false false)]
  ∧ d.stopRequest 2 two_submitted = Undefined.
Proof.
  split; [reflexivity|].
  apply (stopRequest_last_entry_reads_end two_submitted 2 [] (set_uiId 2 (a_task false false))).
  - reflexivity.
  - reflexivity.
  - intros t' Ht'. inversion Ht'.
Defined.

(** ** Completion of a batch *)

(** Claim C2.  When the finished count of a batch reaches its total, all six
    ledger entries of the batch should be gone after the terminal delivery,
    as after [stopBatchRequests].  Batch 1 has one task, which reported 100
    bytes down and 40 up and now succeeds: [onRequestFinished] signals the
    batch finished, delivers the destroying notification and removes the
    total and finished counts, but the two last-value maps and the two running
    totals keep their entries for batch 1.  [stopBatchRequests 1] on the same
    state removes the six. *)
Theorem batch_complete_keeps_byte_ledger asyn :
  m_mapBatchTotalSize batch_of_one_in_flight !! 1 = Some 1
  ∧ ∃ s' out,
      NetworkManager.onRequestFinished asyn 8 finished_task batch_of_one_in_flight
      = Done tt s' out
      ∧ batchRequestFinished 1 ∈ out
      ∧ notifications out = [notification asyn (mkNetworkReply 0 true) finished_task true]
      ∧ m_mapBatchReply s' !! 1 = None
      ∧ m_mapBatchTotalSize s' !! 1 = None
      ∧ m_mapBatchFinishedSize s' !! 1 = None
      ∧ m_mapBatchDownloadCurrentBytes s' !! 1 = Some {[1 := 100]}
      ∧ m_mapBatchDownloadTotalBytes s' !! 1 = Some 100
      ∧ m_mapBatchUploadCurrentBytes s' !! 1 = Some {[1 := 40]}
      ∧ m_mapBatchUploadTotalBytes s' !! 1 = Some 40
      ∧ ∃ s2 out2,
          d.stopBatchRequests 1 batch_of_one_in_flight = Done tt s2 out2
          ∧ m_mapBatchTotalSize s2 !! 1 = None
          ∧ m_mapBatchFinishedSize s2 !! 1 = None
          ∧ m_mapBatchDownloadCurrentBytes s2 !! 1 = None
          ∧ m_mapBatchDownloadTotalBytes s2 !! 1 = None
          ∧ m_mapBatchUploadCurrentBytes s2 !! 1 = None
          ∧ m_mapBatchUploadTotalBytes s2 !! 1 = None.
Proof.
  split; [reflexivity|].
  destruct asyn.
  - eexists _, _. split; [vm_compute; reflexivity|].
    split; [apply list_elem_of_In; vm_compute; tauto|].
    do 8 (split; [vm_compute; reflexivity|]).
    eexists _, _. split; [vm_compute; reflexivity|]. repeat split; vm_compute; reflexivity.
  - eexists _, _. split; [vm_compute; reflexivity|].
    split; [apply list_elem_of_In; vm_compute; tauto|].
    do 8 (split; [vm_compute; reflexivity|]).
    eexists _, _. split; [vm_compute; reflexivity|]. repeat split; vm_compute; reflexivity.
Qed.

(** ** Failures and the single retry *)

Lemma onRequestFinished_guard asyn next request s :
  m_bStopAllFlag s = false → uiId request > 0 →
  NetworkManager.onRequestFinished_then asyn next request s
  = (NetworkManager.settleRequest asyn request ;; next) s.
Proof.
  intros Hflag Hid. unfold NetworkManager.onRequestFinished_then, d.isStopAll,
    NetworkManager.isValidTask.
  unfold mbind at 1, M_bind at 1, gets at 1. rewrite Hflag. simpl.
  rewrite bool_decide_eq_true_2 by done. simpl.
  by destruct ((_ ;; next) s).
Qed.

Lemma retryOrNotify_eq request s :
  NetworkManager.retryOrNotify request s =
  if negb (bSuccess request) && bTryAgainWhileFailed request
     && negb (qmap_contains (m_queFailed s) (uiId request))
  then Done false
         (set_m_queWaiting (m_queWaiting s ++ [request])
            (set_m_queFailed (<[uiId request := request]> (m_queFailed s)) s)) []
  else Done true s [].
Proof.
  unfold NetworkManager.retryOrNotify, d.addToFailedQueue, d.addToWaitQueue.
  destruct (bSuccess request); [done|]. simpl negb. cbv iota.
  destruct (bTryAgainWhileFailed request); [|done].
  run_bind. by destruct (qmap_contains (m_queFailed s) (uiId request)).
Qed.




Lemma onRequestFinished_dropped asyn next request s :
  m_bStopAllFlag s || negb (NetworkManager.isValidTask request) = true →
  NetworkManager.onRequestFinished_then asyn next request s = Done tt s [].
Proof.
  intros H. unfold NetworkManager.onRequestFinished_then, d.isStopAll.
  unfold mbind, M_bind, gets. by rewrite H.
Qed.



(** ** The dispatch loop returns *)

Lemma attempts_insert_le failed id r t :
  (attempts (<[id := r]> failed) t ≤ attempts failed t)%nat.
Proof.
  unfold attempts, qmap_contains.
  destruct (negb (bSuccess t) && bTryAgainWhileFailed t); simpl; [|lia].
  destruct (decide (is_Some (failed !! uiId t))) as [Hs|Hn].
  - rewrite (bool_decide_eq_true_2 (is_Some (failed !! uiId t))) by done.
    rewrite bool_decide_eq_true_2; [simpl; lia|].
    destruct (decide (id = uiId t)) as [->|]; [rewrite lookup_insert_eq; eauto|].
    by rewrite lookup_insert_ne.
  - rewrite (bool_decide_eq_false_2 (is_Some (failed !! uiId t))) by done. simpl.
    case_bool_decide; simpl; lia.
Qed.

Lemma pending_insert_le failed id r que :
  (pending (<[id := r]> failed) que ≤ pending failed que)%nat.
Proof.
  unfold pending. induction que as [|t que IH]; simpl; [lia|].
  pose proof (attempts_insert_le failed id r t). lia.
Qed.

Lemma pending_app failed que1 que2 :
  pending failed (que1 ++ que2) = (pending failed que1 + pending failed que2)%nat.
Proof. apply sum_list_with_app. Qed.

Lemma pending_filter_le failed (P : RequestTask → Prop) `{∀ t, Decision (P t)} que :
  (pending failed (filter P que) ≤ pending failed que)%nat.
Proof.
  unfold pending. induction que as [|t que IH]; simpl; [lia|].
  rewrite filter_cons. destruct (decide (P t)); simpl; lia.
Qed.

Lemma notify_and_release_backlog asyn request (bNotify : bool) (n : nat) :
  preserves (λ s, (backlog s ≤ n)%nat)
    ((if bNotify then NetworkManager.notifyResult asyn request else mret tt) ;;
     NetworkManager.abortBatch request ;;
     d.killRequestThread (uiId request) ;;
     mret tt).
Proof.
  unfold NetworkManager.notifyResult, NetworkManager.batchReplyOf, NetworkManager.abortBatch,
    backlog.
  autounfold with members. repeat preserves_step.
  etrans; [apply pending_filter_le; apply _|done].
Qed.

(** Settling a completion takes at least one of the attempts still pending. *)
Lemma settleRequest_backlog asyn request s :
  ∃ s' out, NetworkManager.settleRequest asyn request s = Done tt s' out
    ∧ (backlog s' < attempts (m_queFailed s) request + backlog s)%nat.
Proof.
  unfold NetworkManager.settleRequest.
  unfold mbind at 1, M_bind at 1. rewrite retryOrNotify_eq.
  unfold attempts.
  destruct (negb (bSuccess request) && bTryAgainWhileFailed request
            && negb (qmap_contains (m_queFailed s) (uiId request))) eqn:Hretry.
  - edestruct (notify_and_release_backlog asyn request false) as ([] & s' & out & -> & Hle).
    { reflexivity. }
    exists s', out. split; [done|]. revert Hle. unfold backlog at 2. simpl.
    rewrite pending_app. unfold pending at 2. simpl.
    pose proof (pending_insert_le (m_queFailed s) (uiId request) request (m_queWaiting s)).
    assert (attempts (<[uiId request := request]> (m_queFailed s)) request = 1%nat) as ->.
    { unfold attempts, qmap_contains. rewrite lookup_insert_eq.
      rewrite bool_decide_eq_true_2 by eauto. by rewrite andb_false_r. }
    unfold backlog. lia.
  - edestruct (notify_and_release_backlog asyn request true) as ([] & s' & out & -> & Hle).
    { reflexivity. }
    exists s', out. split; [done|]. lia.
Qed.

Lemma onRequestFinished_then_completes asyn next request s :
  (∀ s1, (backlog s1 < attempts (m_queFailed s) request + backlog s)%nat →
         completes next s1) →
  completes (NetworkManager.onRequestFinished_then asyn next request) s.
Proof.
  intros Hnext. unfold NetworkManager.onRequestFinished_then.
  eapply completes_bind; [reflexivity|].
  destruct (m_bStopAllFlag s || negb (NetworkManager.isValidTask request)).
  - by exists tt, s, [].
  - destruct (settleRequest_backlog asyn request s) as (s1 & out1 & Hsettle & Hlt).
    eapply completes_bind; [exact Hsettle|]. by apply Hnext.
Qed.

(** [startNextRequest] returns as soon as the fuel exceeds the attempts
    pending in the wait queue. *)
Lemma startNextRequest_total asyn fuel : ∀ s,
  (backlog s < fuel)%nat →
  ∃ s' out, NetworkManager.startNextRequest asyn fuel s = Done tt s' out.
Proof.
  cut (∀ s, (backlog s < fuel)%nat → completes (NetworkManager.startNextRequest asyn fuel) s).
  { intros H s Hs. destruct (H s Hs) as ([] & s' & out & E). eauto. }
  induction fuel as [|fuel IH]; intros s Hfuel; [lia|].
  simpl. eapply completes_bind; [reflexivity|].
  destruct (m_bStopAllFlag s) eqn:Hflag; [by exists tt, s, []|].
  eapply completes_bind; [reflexivity|].
  destruct (m_queWaiting s) as [|request que] eqn:Hque.
  - rewrite bool_decide_eq_true_2 by done. simpl.
    apply completes_preserves. autounfold with members. repeat preserves_step.
  - rewrite bool_decide_eq_false_2 by done. simpl.
    eapply completes_bind; [reflexivity|].
    case_bool_decide; [|by eexists tt, s, _].
    eapply completes_bind.
    { unfold d.takeFromWaitQueue, mbind, M_bind, gets. rewrite Hque. reflexivity. }
    destruct (d.isRequestValid (url request)).
    + apply completes_preserves. autounfold with members. repeat preserves_step.
    + apply onRequestFinished_then_completes. intros s1 Hlt. apply IH.
      revert Hlt Hfuel. unfold backlog at 2 3. simpl. rewrite Hque. simpl. lia.
Qed.

(** So does [onRequestFinished]. *)
Lemma onRequestFinished_total asyn fuel request s :
  (backlog s + 2 < fuel)%nat →
  ∃ s' out, NetworkManager.onRequestFinished asyn fuel request s = Done tt s' out.
Proof.
  intros Hfuel.
  destruct (onRequestFinished_then_completes asyn
              (NetworkManager.startNextRequest asyn fuel) request s)
    as ([] & s' & out & E); [|by eauto].
  intros s1 Hlt. destruct (startNextRequest_total asyn fuel s1) as (s' & out & E).
  - assert (attempts (m_queFailed s) request ≤ 2)%nat; [|lia].
    unfold attempts. case_match; lia.
  - by exists tt, s', out.
Qed.

(** A task with the retry flag that fails twice: the first failure queues it
    again, the freed worker slot restarts it, the second failure is delivered
    to its reply handle, which is destroyed. *)
Example retry_then_deliver :
  ∃ s1 s2 s3 s4,
    NetworkManager.onRequestFinished false 8 failed_retry_task retry_in_flight
    = Done tt s1 [ThreadQuit (mkNetworkRequestThread failed_retry_task); PostWaitForIdleThread]
    ∧ workerExited s1 = Done tt s2 []
    ∧ NetworkManager.event false 8 NetworkManager.WaitForIdleThread s2
      = Done true s3 [ThreadStarted (mkNetworkRequestThread failed_retry_task)]
    ∧ NetworkManager.onRequestFinished false 8 failed_retry_task s3
      = Done tt s4 [ReplyResult (mkNetworkReply 0 false) failed_retry_task true;
                    ThreadQuit (mkNetworkRequestThread failed_retry_task);
                    PostWaitForIdleThread]
    ∧ m_mapReply s4 = ∅ ∧ m_queWaiting s4 = [].
Proof.
  eexists _, _, _, _.
  split; [vm_compute; reflexivity|]. split; [vm_compute; reflexivity|].
  split; [vm_compute; reflexivity|]. split; [vm_compute; reflexivity|].
  split; vm_compute; reflexivity.
Qed.

(** * Further properties *)

(** ** Equations of the monad *)

Lemma prepend_nil {A : Type} (r : Outcome A) : prepend [] r = r.
Proof. by destruct r. Qed.


Lemma bind_unfold {A B : Type} (m : M A) (k : A → M B) s :
  (m ≫= k) s = match m s with
               | Done a s1 o1 => prepend o1 (k a s1)
               | Undefined => Undefined
               | OutOfFuel => OutOfFuel
               end.
Proof. unfold mbind, M_bind. destruct (m s) as [a s1 o1| |]; [|done..]. by destruct (k a s1). Qed.

Lemma bind_gets {A B : Type} (f : NetworkManagerPrivate → A) (k : A → M B) s :
  (gets f ≫= k) s = k (f s) s.
Proof. rewrite bind_unfold. apply prepend_nil. Qed.

Lemma bind_modify {B : Type} (g : NetworkManagerPrivate → NetworkManagerPrivate)
    (k : unit → M B) s :
  (modify g ≫= k) s = k tt (g s).
Proof. rewrite bind_unfold. apply prepend_nil. Qed.

Lemma bind_ret {A B : Type} (a : A) (k : A → M B) s : (mret a ≫= k) s = k a s.
Proof. rewrite bind_unfold. apply prepend_nil. Qed.

Lemma bind_emit {B : Type} (e : Event) (k : unit → M B) s :
  (emit e ≫= k) s = prepend [e] (k tt s).
Proof. by rewrite bind_unfold. Qed.

Lemma bind_for_each_emit {A B : Type} (h : A → Event) (l : list A) (k : unit → M B) s :
  (for_each l (λ x, emit (h x)) ≫= k) s = prepend (h <$> l) (k tt s).
Proof. by rewrite bind_unfold, for_each_emit. Qed.

Lemma bind_inv {A B : Type} (m : M A) (k : A → M B) s b s2 out :
  (m ≫= k) s = Done b s2 out →
  ∃ a s1 o1 o2, m s = Done a s1 o1 ∧ k a s1 = Done b s2 o2 ∧ out = o1 ++ o2.
Proof.
  rewrite bind_unfold. destruct (m s) as [a s1 o1| |]; [|done..].
  destruct (k a s1) as [b' s2' o2| |] eqn:E; [|done..]. simpl.
  intros [= -> -> <-]. by exists a, s1, o1, o2.
Qed.

(** ** Submission of a batch *)

Lemma wrap_u64_plus_l a c : wrap_u64 (wrap_u64 a + c) = wrap_u64 (a + c).
Proof. unfold wrap_u64. apply Zplus_mod_idemp_l. Qed.

Lemma advanced_S n k : advanced n (S k) = wrap_u64 (n + Z.of_nat (S k)).
Proof.
  induction k as [|k IH]; [done|].
  change (advanced n (S (S k))) with (wrap_u64 (advanced n (S k) + 1)).
  rewrite IH, wrap_u64_plus_l. f_equal. lia.
Qed.

Lemma advanced_shift n k : advanced (wrap_u64 (n + 1)) k = advanced n (S k).
Proof. unfold advanced. by rewrite Nat.iter_succ_r. Qed.

Lemma stamped_cons b n t tasks :
  stamped b n (t :: tasks)
  = set_uiId (wrap_u64 (n + 1)) (set_uiBatchId b t) :: stamped b (wrap_u64 (n + 1)) tasks.
Proof.
  unfold stamped. rewrite imap_cons. f_equal.
  - do 2 f_equal. lia.
  - apply imap_ext. intros i t' _. simpl. f_equal.
    replace (wrap_u64 (n + 1) + Z.of_nat i + 1) with (wrap_u64 (n + 1) + (Z.of_nat i + 1)) by lia.
    rewrite wrap_u64_plus_l. f_equal. lia.
Qed.

Lemma newRequestId_eq s :
  d.newRequestId s
  = Done (wrap_u64 (ms_uiRequestId s + 1))
      (set_ms_uiRequestId (wrap_u64 (ms_uiRequestId s + 1)) s) [].
Proof. done. Qed.

Lemma newBatchId_eq s :
  d.newBatchId s
  = Done (wrap_u64 (ms_uiBatchId s + 1))
      (set_ms_uiBatchId (wrap_u64 (ms_uiBatchId s + 1)) s) [].
Proof. done. Qed.

Lemma new_NetworkReply_eq bBatch s :
  d.new_NetworkReply bBatch s
  = Done (mkNetworkReply (heap_replies s) bBatch) (set_heap_replies (S (heap_replies s)) s) [].
Proof. done. Qed.

Lemma stamp_each b tasks : ∀ s,
  for_each tasks (λ request,
    let request := set_uiBatchId b request in
    id ← d.newRequestId ; d.addToWaitQueue (set_uiId id request)) s
  = Done tt
      (set_m_queWaiting (m_queWaiting s ++ stamped b (ms_uiRequestId s) tasks)
         (set_ms_uiRequestId (advanced (ms_uiRequestId s) (length tasks)) s)) [].
Proof.
  induction tasks as [|t tasks IH]; intros s.
  - simpl. unfold stamped. simpl. rewrite app_nil_r.
    unfold mret, M_ret. f_equal. symmetry. apply private_eta.
  - cbn [for_each]. rewrite bind_unfold. cbv beta zeta.
    rewrite bind_unfold, newRequestId_eq. cbn [prepend app].
    unfold d.addToWaitQueue. rewrite bind_gets. unfold modify at 1.
    cbn [prepend app]. rewrite IH. cbn [prepend app]. f_equal.
    rewrite stamped_cons. cbn -[stamped advanced].
    rewrite advanced_shift, <- app_assoc. done.
Qed.

(** Property X3.  [NetworkManagerPrivate::addBatchRequest] always returns a
    fresh batch handle and the next batch id, records the number of tasks as
    the total of the batch (as an [int]), registers the handle, and appends the
    tasks to the wait queue in their order, each with the batch id and with
    consecutive request ids; the request counter advances once per task (so an
    empty list consumes a batch id and no request id).  Workers, single-task
    handles, failed registry, pool and stop flag are untouched. *)
Theorem addBatchRequest_stamps tasks s :
  let b := wrap_u64 (ms_uiBatchId s + 1) in
  let reply := mkNetworkReply (heap_replies s) true in
  ∃ s', d.addBatchRequest tasks s = Done (reply, b) s' []
    ∧ ms_uiBatchId s' = b
    ∧ m_mapBatchTotalSize s' = <[b := wrap_s32 (Z.of_nat (length tasks))]> (m_mapBatchTotalSize s)
    ∧ m_mapBatchReply s' = <[b := reply]> (m_mapBatchReply s)
    ∧ heap_replies s' = S (heap_replies s)
    ∧ m_queWaiting s' = m_queWaiting s ++ stamped b (ms_uiRequestId s) tasks
    ∧ ms_uiRequestId s' = advanced (ms_uiRequestId s) (length tasks)
    ∧ (∀ i t, tasks !! i = Some t →
         m_queWaiting s' !! (length (m_queWaiting s) + i)%nat
         = Some (set_uiId (wrap_u64 (ms_uiRequestId s + Z.of_nat i + 1)) (set_uiBatchId b t)))
    ∧ (0 ≤ ms_uiRequestId s → ms_uiRequestId s + Z.of_nat (length tasks) < 2 ^ 64 →
       ms_uiRequestId s' = ms_uiRequestId s + Z.of_nat (length tasks)
       ∧ ∀ i t, m_queWaiting s' !! (length (m_queWaiting s) + i)%nat = Some t →
           uiId t = ms_uiRequestId s + Z.of_nat i + 1)
    ∧ m_mapRequestThread s' = m_mapRequestThread s
    ∧ m_mapReply s' = m_mapReply s
    ∧ m_queFailed s' = m_queFailed s
    ∧ m_pThreadPool s' = m_pThreadPool s
    ∧ m_bStopAllFlag s' = m_bStopAllFlag s.
Proof.
  intros b reply. unfold d.addBatchRequest.
  rewrite bind_unfold, newBatchId_eq. cbn [prepend app].
  rewrite bind_gets, bind_modify, bind_unfold, new_NetworkReply_eq. cbn [prepend app].
  rewrite bind_gets, bind_modify, bind_unfold, stamp_each.
  cbn -[stamped advanced]. eexists. split; [reflexivity|]. cbn -[stamped advanced].
  fold b. fold reply.
  split_and!; try done.
  - intros i t Hi. rewrite lookup_app_r by lia.
    replace (length (m_queWaiting s) + i - length (m_queWaiting s))%nat with i by lia.
    unfold stamped. rewrite list_lookup_imap, Hi. done.
  - intros Hn Hlen. split.
    + destruct (length tasks) as [|k] eqn:Ek; [simpl; lia|].
      rewrite advanced_S. apply wrap_u64_small. lia.
    + intros i t. rewrite lookup_app_r by lia.
      replace (length (m_queWaiting s) + i - length (m_queWaiting s))%nat with i by lia.
      unfold stamped. rewrite list_lookup_imap.
      destruct (tasks !! i) as [t0|] eqn:Hi; [|done]. simpl. intros [= <-]. simpl.
      apply lookup_lt_Some in Hi. apply wrap_u64_small. lia.
Qed.

(** ** Submission of a task *)

Lemma resetStopAllFlag_eq s :
  d.resetStopAllFlag s = Done tt (set_m_bStopAllFlag false s) [].
Proof.
  unfold d.resetStopAllFlag. rewrite bind_gets.
  destruct (m_bStopAllFlag s) eqn:Hflag; [done|].
  unfold mret, M_ret. f_equal. simpl. rewrite <- Hflag. symmetry. apply private_eta.
Qed.

Lemma d_addRequest_valid u uiId0 s :
  url_isValid u = true →
  d.addRequest u uiId0 s
  = Done (Some (mkNetworkReply (heap_replies s) false), wrap_u64 (ms_uiRequestId s + 1))
      (set_m_mapReply
         (<[wrap_u64 (ms_uiRequestId s + 1) := mkNetworkReply (heap_replies s) false]>
            (m_mapReply s))
         (set_heap_replies (S (heap_replies s))
            (set_ms_uiRequestId (wrap_u64 (ms_uiRequestId s + 1)) s))) [].
Proof.
  intros Hu. unfold d.addRequest, d.isRequestValid. rewrite Hu.
  rewrite bind_unfold, newRequestId_eq. cbn [prepend app].
  rewrite bind_unfold, new_NetworkReply_eq. cbn [prepend app].
  by rewrite bind_gets, bind_modify.
Qed.

Lemma addRequest_registers request s :
  url_isValid (url request) = true →
  ∃ s' out,
    NetworkManager.addRequest request s
    = Done (Some (mkNetworkReply (heap_replies s) false),
            set_uiId (wrap_u64 (ms_uiRequestId s + 1)) request) s' out
    ∧ ms_uiRequestId s' = wrap_u64 (ms_uiRequestId s + 1)
    ∧ m_mapReply s'
      = <[wrap_u64 (ms_uiRequestId s + 1) := mkNetworkReply (heap_replies s) false]> (m_mapReply s).
Proof.
  intros Hurl. unfold NetworkManager.addRequest, idle_slot.
  rewrite bind_unfold, resetStopAllFlag_eq. cbn [prepend app].
  rewrite bind_unfold, (d_addRequest_valid _ _ _ Hurl). cbn [prepend app].
  cbv zeta. cbn [fst snd].
  rewrite bool_decide_eq_true_2 by eauto.
  unfold NetworkManager.isThreadAvailable, NetworkManager.isWaitingRequestEmpty,
    d.isThreadAvailable, d.isWaitQueueEmpty, NetworkManager.startRequest, d.startRequest,
    d.addToWaitQueue.
  run_bind.
  destruct (bool_decide (pool_activeThreadCount (m_pThreadPool s)
                         < pool_maxThreadCount (m_pThreadPool s))) eqn:Ha;
    destruct (bool_decide (m_queWaiting s = [])) eqn:Hq; run_bind; rewrite ?Ha; run_bind;
    eexists _, _; (split; [reflexivity|]); split_and!; done.
Qed.

(** Property X1.  [NetworkManager::addRequest] with a valid locator always
    returns a fresh reply handle and the task with the next request id, clears
    the stop flag, registers the handle under that id and leaves the failed
    registry alone.  The task starts at once (one worker started and
    registered, one more active thread, nothing queued) exactly when a pool
    thread is free and the wait queue is empty; otherwise it is appended to
    the wait queue and no worker, thread map or pool changes: a task never
    overtakes the ones that wait. *)
Theorem addRequest_admission request s :
  url_isValid (url request) = true →
  ∃ s' out,
    NetworkManager.addRequest request s
    = Done (Some (mkNetworkReply (heap_replies s) false),
            set_uiId (wrap_u64 (ms_uiRequestId s + 1)) request) s' out
    ∧ m_bStopAllFlag s' = false
    ∧ ms_uiRequestId s' = wrap_u64 (ms_uiRequestId s + 1)
    ∧ m_mapReply s'
      = <[wrap_u64 (ms_uiRequestId s + 1) := mkNetworkReply (heap_replies s) false]> (m_mapReply s)
    ∧ m_queFailed s' = m_queFailed s
    ∧ if idle_slot s
      then out = [ThreadStarted (mkNetworkRequestThread
                                   (set_uiId (wrap_u64 (ms_uiRequestId s + 1)) request))]
           ∧ m_queWaiting s' = []
           ∧ m_mapRequestThread s'
             = <[wrap_u64 (ms_uiRequestId s + 1)
                 := mkNetworkRequestThread (set_uiId (wrap_u64 (ms_uiRequestId s + 1)) request)]>
                 (m_mapRequestThread s)
           ∧ pool_activeThreadCount (m_pThreadPool s')
             = pool_activeThreadCount (m_pThreadPool s) + 1
      else out = []
           ∧ m_queWaiting s'
             = m_queWaiting s ++ [set_uiId (wrap_u64 (ms_uiRequestId s + 1)) request]
           ∧ m_mapRequestThread s' = m_mapRequestThread s
           ∧ m_pThreadPool s' = m_pThreadPool s.
Proof.
  intros Hurl. unfold NetworkManager.addRequest, idle_slot.
  rewrite bind_unfold, resetStopAllFlag_eq. cbn [prepend app].
  rewrite bind_unfold, (d_addRequest_valid _ _ _ Hurl). cbn [prepend app].
  cbv zeta. cbn [fst snd].
  rewrite bool_decide_eq_true_2 by eauto.
  unfold NetworkManager.isThreadAvailable, NetworkManager.isWaitingRequestEmpty,
    d.isThreadAvailable, d.isWaitQueueEmpty, NetworkManager.startRequest, d.startRequest,
    d.addToWaitQueue.
  run_bind.
  destruct (bool_decide (pool_activeThreadCount (m_pThreadPool s)
                         < pool_maxThreadCount (m_pThreadPool s))) eqn:Ha;
    destruct (bool_decide (m_queWaiting s = [])) eqn:Hq; run_bind; rewrite ?Ha; run_bind;
    eexists _, _; (split; [reflexivity|]); split_and!; try done.
  by apply bool_decide_eq_true in Hq.
Qed.

(** An instance. *)
Lemma addRequest_admission_witness :
  ∃ s' out,
    NetworkManager.addRequest (a_task false false) (constructed 1)
    = Done (Some (mkNetworkReply 0 false), set_uiId 1 (a_task false false)) s' out
    ∧ out = [ThreadStarted (mkNetworkRequestThread (set_uiId 1 (a_task false false)))]
    ∧ m_queWaiting s' = [].
Proof.
  destruct (addRequest_admission (a_task false false) (constructed 1) eq_refl)
    as (s' & out & Hrun & _ & _ & _ & _ & H).
  change (idle_slot (constructed 1)) with true in H. cbv iota in H.
  destruct H as (Hout & Hq & _).
  exists s', out. split; [exact Hrun|]. split; [exact Hout|exact Hq].
Defined.

(** Property X2.  As long as the request id counter does not wrap and every
    registered handle has an id already allocated, the id [addRequest] gives
    is the counter plus one, no handle was registered under it, the new handle
    is registered under it, every earlier handle stays registered, and the
    invariant on the registered ids is kept. *)
Theorem addRequest_fresh_handle request s :
  url_isValid (url request) = true →
  replies_allocated s →
  0 ≤ ms_uiRequestId s →
  ms_uiRequestId s + 1 < 2 ^ 64 →
  ∃ reply request' s' out,
    NetworkManager.addRequest request s = Done (Some reply, request') s' out
    ∧ uiId request' = ms_uiRequestId s + 1
    ∧ m_mapReply s !! uiId request' = None
    ∧ m_mapReply s' !! uiId request' = Some reply
    ∧ (∀ k r, m_mapReply s !! k = Some r → m_mapReply s' !! k = Some r)
    ∧ replies_allocated s'.
Proof.
  intros Hurl Halloc Hn Hmax.
  destruct (addRequest_registers request s Hurl) as (s' & out & Hrun & Hid & Hreply).
  rewrite (wrap_u64_small (ms_uiRequestId s + 1)) in * by lia.
  assert (m_mapReply s !! (ms_uiRequestId s + 1) = None) as Hfresh.
  { apply eq_None_not_Some. intros H%Halloc. lia. }
  eexists _, _, s', out. split; [exact Hrun|]. simpl. split_and!; try done.
  - by rewrite Hreply, lookup_insert_eq.
  - intros k r Hk. rewrite Hreply, lookup_insert_ne; [done|]. intros <-. congruence.
  - intros k. rewrite Hreply, Hid. rewrite lookup_insert. case_decide as Hk.
    + intros _. lia.
    + intros H%Halloc. lia.
Qed.

(** An instance. *)
Lemma addRequest_fresh_handle_witness :
  ∃ reply request' s' out,
    NetworkManager.addRequest (a_task false false) two_submitted
    = Done (Some reply, request') s' out
    ∧ uiId request' = 3
    ∧ m_mapReply s' !! 1 = Some (mkNetworkReply 0 false).
Proof.
  destruct (addRequest_fresh_handle (a_task false false) two_submitted)
    as (reply & request' & s' & out & Hrun & Hid & _ & _ & Hkeep & _).
  - reflexivity.
  - intros k [r Hk]. vm_compute in Hk.
    destruct (decide (k = 1)) as [->|]; [vm_compute; split; [done|discriminate]|].
    destruct (decide (k = 2)) as [->|]; [vm_compute; split; [done|discriminate]|].
    exfalso. revert Hk. change (m_mapReply two_submitted !! k = Some r → False).
    assert (m_mapReply two_submitted
            = <[1 := mkNetworkReply 0 false]> (<[2 := mkNetworkReply 1 false]> ∅)) as ->
      by (vm_compute; reflexivity).
    rewrite !lookup_insert_ne, lookup_empty by done. done.
  - vm_compute. discriminate.
  - vm_compute. reflexivity.
  - exists reply, request', s', out. split; [exact Hrun|]. split; [exact Hid|].
    apply Hkeep. vm_compute. reflexivity.
Defined.

(** ** The wait queue *)

Lemma addToWaitQueue_each l : ∀ s,
  for_each l d.addToWaitQueue s = Done tt (set_m_queWaiting (m_queWaiting s ++ l) s) [].
Proof.
  induction l as [|t l IH]; intros s; simpl.
  - rewrite app_nil_r. unfold mret, M_ret. f_equal. symmetry. apply private_eta.
  - rewrite bind_unfold. unfold d.addToWaitQueue at 1. rewrite bind_gets.
    unfold modify at 1. cbn [prepend app]. rewrite IH. simpl. by rewrite <- app_assoc.
Qed.

Lemma take_all_queue que : ∀ s,
  m_queWaiting s = que →
  take_all (length que) s = Done que (set_m_queWaiting [] s) [].
Proof.
  induction que as [|t que IH]; intros s Hq; simpl.
  - unfold mret, M_ret. f_equal. rewrite <- Hq. symmetry. apply private_eta.
  - rewrite bind_unfold. unfold d.takeFromWaitQueue at 1. rewrite bind_gets, Hq.
    rewrite bind_modify. unfold mret at 1, M_ret at 1. cbn [prepend app].
    rewrite bind_unfold, (IH (set_m_queWaiting que s)) by done. done.
Qed.

(** Property X5.  The wait queue is first in, first out: tasks added with
    [addToWaitQueue] come back from [takeFromWaitQueue] after the ones that
    waited before, in the order they were added.  Taking from the empty queue
    returns a default task and leaves the queue empty; that task is not a
    valid one for [onRequestFinished]. *)
Theorem wait_queue_is_fifo l s :
  (for_each l d.addToWaitQueue ;; take_all (length (m_queWaiting s ++ l))) s
  = Done (m_queWaiting s ++ l) (set_m_queWaiting [] s) []
  ∧ d.takeFromWaitQueue (set_m_queWaiting [] s)
    = Done RequestTask_default (set_m_queWaiting [] s) []
  ∧ NetworkManager.isValidTask RequestTask_default = false.
Proof.
  split; [|done].
  rewrite bind_unfold, addToWaitQueue_each. cbn [prepend app].
  by rewrite (take_all_queue (m_queWaiting s ++ l)).
Qed.

(** ** Workers started by a handler *)

Section emits.
Context (P : Event → Prop).

Lemma emits_ret {A : Type} (a : A) : emits P (mret a).
Proof. intros s a' s' out [= _ _ <-]. constructor. Qed.

Lemma emits_bind {A B : Type} (m : M A) (k : A → M B) :
  emits P m → (∀ a, emits P (k a)) → emits P (m ≫= k).
Proof.
  intros Hm Hk s b s2 out (a & s1 & o1 & o2 & Em & Ek & ->)%bind_inv.
  apply Forall_app. split; [by eapply Hm | by eapply Hk].
Qed.

Lemma emits_gets {A : Type} (f : NetworkManagerPrivate → A) : emits P (gets f).
Proof. intros s a' s' out [= _ _ <-]. constructor. Qed.

Lemma emits_modify (f : NetworkManagerPrivate → NetworkManagerPrivate) : emits P (modify f).
Proof. intros s a' s' out [= _ _ <-]. constructor. Qed.

Lemma emits_emit (e : Event) : P e → emits P (emit e).
Proof. intros He s a' s' out [= _ _ <-]. by constructor. Qed.

Lemma emits_undefined {A : Type} : emits P (@undefined_behaviour A).
Proof. by intros s a' s' out. Qed.

Lemma emits_out_of_fuel {A : Type} : emits P (@out_of_fuel A).
Proof. by intros s a' s' out. Qed.

Lemma emits_for_each {A : Type} (l : list A) (body : A → M unit) :
  (∀ x, emits P (body x)) → emits P (for_each l body).
Proof.
  intros Hbody. induction l as [|x l IH]; simpl.
  - apply emits_ret.
  - apply emits_bind; auto.
Qed.

End emits.

Ltac emits_step :=
  lazymatch goal with
  | |- emits _ (mbind _ _) => apply emits_bind; [|intros ?]
  | |- emits _ (mret _) => apply emits_ret
  | |- emits _ (gets _) => apply emits_gets
  | |- emits _ (modify _) => apply emits_modify
  | |- emits _ (emit _) => apply emits_emit; try done
  | |- emits _ undefined_behaviour => apply emits_undefined
  | |- emits _ out_of_fuel => apply emits_out_of_fuel
  | |- emits _ (for_each _ _) => apply emits_for_each; intros ?
  | |- emits _ (if ?c then _ else _) => destruct c
  | |- emits _ (match ?x with _ => _ end) => destruct x
  | |- emits _ (let _ := _ in _) => cbv zeta
  end.

Lemma settleRequest_starts_nothing asyn request :
  emits starts_nothing (NetworkManager.settleRequest asyn request).
Proof.
  unfold NetworkManager.settleRequest, NetworkManager.retryOrNotify,
    NetworkManager.notifyResult, NetworkManager.abortBatch, NetworkManager.batchReplyOf.
  autounfold with members. repeat emits_step.
Qed.

Lemma started_app o1 o2 : started (o1 ++ o2) = started o1 ++ started o2.
Proof. unfold started. apply omap_app. Qed.

Lemma discarded_app o1 o2 : discarded (o1 ++ o2) = discarded o1 ++ discarded o2.
Proof. unfold discarded. apply omap_app. Qed.

Lemma started_nothing out :
  Forall starts_nothing out → started out = [] ∧ discarded out = [].
Proof.
  induction 1 as [|e out He _ [IH1 IH2]]; [done|].
  unfold started, discarded in *. by destruct e.
Qed.

Lemma startNextRequest_starts_one asyn fuel : ∀ s s' out,
  NetworkManager.startNextRequest asyn fuel s = Done tt s' out →
  (length (started out) ≤ 1)%nat ∧ discarded out = [].
Proof.
  induction fuel as [|fuel IH]; intros s s' out; [done|].
  cbn [NetworkManager.startNextRequest]. unfold d.isStopAll.
  rewrite bind_gets; cbn beta.
  destruct (m_bStopAllFlag s); [intros [= _ <-]; cbn; split; [lia|done]|].
  unfold NetworkManager.isWaitingRequestEmpty, d.isWaitQueueEmpty.
  rewrite bind_unfold, bind_gets; cbn beta. unfold mret at 1, M_ret at 1. cbn [prepend].
  rewrite prepend_nil.
  destruct (m_queWaiting s) as [|request que] eqn:Eq.
  - rewrite bool_decide_eq_true_2 by done. cbn [negb]. rewrite bind_gets; cbn beta.
    repeat case_bool_decide; unfold d.clearFailedQueue, NetworkManager.waitForIdleThread;
      intros [= _ <-]; cbn; (split; [lia|done]).
  - rewrite bool_decide_eq_false_2 by done. cbn [negb].
    unfold NetworkManager.isThreadAvailable, d.isThreadAvailable.
    rewrite bind_unfold, bind_gets; cbn beta. unfold mret at 1, M_ret at 1. cbn [prepend].
    rewrite prepend_nil.
    case_bool_decide as Hav; [|intros [= _ <-]; cbn; split; [lia|done]].
    unfold d.takeFromWaitQueue. rewrite bind_unfold, bind_gets; cbn beta. rewrite Eq.
    rewrite bind_modify; cbn beta. unfold mret at 1, M_ret at 1. cbn [prepend].
    rewrite prepend_nil.
    destruct (d.isRequestValid (url request)).
    + unfold NetworkManager.startRequest, d.startRequest. run_bind.
      rewrite bool_decide_eq_true_2 by done. cbn. intros [= _ <-]; cbn; split; [lia|done].
    + unfold NetworkManager.onRequestFinished_then, d.isStopAll.
      rewrite bind_gets; cbn beta. cbn [m_bStopAllFlag set_m_queWaiting].
      destruct (m_bStopAllFlag s || negb (NetworkManager.isValidTask request));
        [intros [= _ <-]; cbn; split; [lia|done]|].
      intros (a & s1 & o1 & o2 & E1 & E2 & ->)%bind_inv.
      rewrite started_app, discarded_app.
      destruct (started_nothing o1) as [-> ->];
        [by eapply settleRequest_starts_nothing|].
      destruct a. by eapply IH.
Qed.

Lemma updateProgress_starts_nothing uiTargetId uiBatchId iBytes iTotalBytes bDownload :
  emits starts_nothing
    (NetworkManager.updateProgress uiTargetId uiBatchId iBytes iTotalBytes bDownload).
Proof.
  unfold NetworkManager.updateProgress, d.updateBatchProgress. repeat emits_step.
Qed.

Lemma onRequestFinished_starts_one asyn fuel request s s' out :
  NetworkManager.onRequestFinished asyn fuel request s = Done tt s' out →
  (length (started out) ≤ 1)%nat ∧ discarded out = [].
Proof.
  unfold NetworkManager.onRequestFinished, NetworkManager.onRequestFinished_then, d.isStopAll.
  rewrite bind_gets; cbn beta.
  destruct (m_bStopAllFlag s || negb (NetworkManager.isValidTask request));
    [intros [= _ <-]; cbn; split; [lia|done]|].
  intros (a & s1 & o1 & o2 & E1 & E2 & ->)%bind_inv.
  rewrite started_app, discarded_app.
  destruct (started_nothing o1) as [-> ->]; [by eapply settleRequest_starts_nothing|].
  destruct a. by eapply startNextRequest_starts_one.
Qed.

(** Property X6.  One run of [startNextRequest], of [onRequestFinished] or
    of [event] starts at most one worker, whatever the wait queue holds and
    however many pool threads are free, and never has to give a worker back
    ([deleteLater]): the pool accepts the worker it starts. *)
Theorem handlers_start_at_most_one asyn fuel s s' out :
  NetworkManager.startNextRequest asyn fuel s = Done tt s' out
  ∨ (∃ request, NetworkManager.onRequestFinished asyn fuel request s = Done tt s' out)
  ∨ (∃ e r, NetworkManager.event asyn fuel e s = Done r s' out) →
  (length (started out) ≤ 1)%nat ∧ discarded out = [].
Proof.
  intros [E|[[request E]|(e & r & E)]].
  - by eapply startNextRequest_starts_one.
  - by eapply onRequestFinished_starts_one.
  - revert E.
    destruct e as [|uiId batch iBytes iTotalBytes dir|request|bBase]; unfold NetworkManager.event;
      [| | |intros [= _ _ <-]; cbn; split; [lia|done]];
      intros (a & s1 & o1 & o2 & E1 & [= _ _ <-] & ->)%bind_inv; rewrite app_nil_r.
    + destruct a. by eapply startNextRequest_starts_one.
    + destruct (started_nothing o1) as [-> ->]; [|cbn; split; [lia|done]].
      by eapply updateProgress_starts_nothing.
    + destruct a. by eapply onRequestFinished_starts_one.
Qed.

(** An instance. *)
Lemma handlers_start_at_most_one_witness :
  ∃ s' out,
    NetworkManager.startNextRequest false 8 (state_after workerExited two_submitted)
    = Done tt s' out
    ∧ (length (started out) ≤ 1)%nat ∧ discarded out = [].
Proof.
  destruct (NetworkManager.startNextRequest false 8 (state_after workerExited two_submitted))
    as [[] s' out| |] eqn:E; [|vm_compute in E; discriminate E..].
  exists s', out. split; [reflexivity|].
  exact (handlers_start_at_most_one false 8 _ s' out (or_introl E)).
Defined.

Lemma d_addBatchRequest_eq tasks s :
  d.addBatchRequest tasks s
  = Done (mkNetworkReply (heap_replies s) true, wrap_u64 (ms_uiBatchId s + 1))
      (batch_queued tasks s) [].
Proof.
  unfold d.addBatchRequest.
  rewrite bind_unfold, newBatchId_eq. cbn [prepend app].
  rewrite bind_gets, bind_modify, bind_unfold, new_NetworkReply_eq. cbn [prepend app].
  rewrite bind_gets, bind_modify, bind_unfold, stamp_each.
  cbn -[stamped advanced]. done.
Qed.

Lemma addBatchRequest_unfold asyn fuel t rest s :
  let s0 := set_m_bStopAllFlag false s in
  let b := wrap_u64 (ms_uiBatchId s + 1) in
  NetworkManager.addBatchRequest asyn fuel (t :: rest) s
  = if bool_decide (b > 0)
       && bool_decide (pool_activeThreadCount (m_pThreadPool s)
                       < pool_maxThreadCount (m_pThreadPool s))
    then match NetworkManager.startNextRequest asyn fuel (batch_queued (t :: rest) s0) with
         | Done _ s' out => Done (Some (mkNetworkReply (heap_replies s) true), b) s' out
         | Undefined => Undefined
         | OutOfFuel => OutOfFuel
         end
    else Done (Some (mkNetworkReply (heap_replies s) true), b) (batch_queued (t :: rest) s0) [].
Proof.
  intros s0 b. unfold NetworkManager.addBatchRequest.
  rewrite bind_unfold, resetStopAllFlag_eq. cbn [prepend]. rewrite prepend_nil.
  rewrite bool_decide_eq_false_2 by done. cbn [negb].
  rewrite bind_unfold, d_addBatchRequest_eq. cbn [prepend fst snd]. rewrite prepend_nil.
  change (ms_uiBatchId (set_m_bStopAllFlag false s)) with (ms_uiBatchId s).
  change (heap_replies (set_m_bStopAllFlag false s)) with (heap_replies s).
  fold s0. fold b.
  destruct (bool_decide (b > 0)); cbn [andb].
  - unfold NetworkManager.isThreadAvailable, d.isThreadAvailable.
    rewrite bind_unfold, bind_unfold, bind_gets; cbn beta.
    unfold mret at 1, M_ret at 1. cbn [prepend]. rewrite prepend_nil.
    change (m_pThreadPool (batch_queued (t :: rest) s0)) with (m_pThreadPool s).
    destruct (bool_decide (pool_activeThreadCount (m_pThreadPool s)
                           < pool_maxThreadCount (m_pThreadPool s))).
    + destruct (NetworkManager.startNextRequest asyn fuel (batch_queued (t :: rest) s0))
        as [[] s' out| |]; cbn; by rewrite ?app_nil_r.
    + done.
  - done.
Qed.

(** Property X4.  [NetworkManager::addBatchRequest] with a non-empty list, on
    a manager with an empty wait queue and a free pool thread, when the first
    task has a valid locator and the batch id has not wrapped to 0: it returns
    the batch handle and id and starts exactly one worker, for the first task;
    all the other tasks of the batch wait, however many pool threads are
    free. *)
Theorem addBatchRequest_starts_one_task asyn fuel t rest s :
  m_queWaiting s = [] →
  pool_activeThreadCount (m_pThreadPool s) < pool_maxThreadCount (m_pThreadPool s) →
  url_isValid (url t) = true →
  wrap_u64 (ms_uiBatchId s + 1) ≠ 0 →
  let b := wrap_u64 (ms_uiBatchId s + 1) in
  let first := set_uiId (wrap_u64 (ms_uiRequestId s + 1)) (set_uiBatchId b t) in
  let pThread := mkNetworkRequestThread first in
  ∃ s', NetworkManager.addBatchRequest asyn (S fuel) (t :: rest) s
        = Done (Some (mkNetworkReply (heap_replies s) true), b) s' [ThreadStarted pThread]
    ∧ m_queWaiting s' = stamped b (wrap_u64 (ms_uiRequestId s + 1)) rest
    ∧ length (m_queWaiting s') = length rest
    ∧ m_mapRequestThread s' = <[uiId first := pThread]> (m_mapRequestThread s)
    ∧ pool_activeThreadCount (m_pThreadPool s')
      = pool_activeThreadCount (m_pThreadPool s) + 1
    ∧ m_bStopAllFlag s' = false.
Proof.
  intros Hq Hav Hurl Hb b first pThread.
  rewrite addBatchRequest_unfold. cbn zeta. fold b.
  assert (0 ≤ b) by apply wrap_u64_nonneg.
  rewrite !bool_decide_eq_true_2 by (done || lia). cbn [andb].
  cbn [NetworkManager.startNextRequest]. unfold d.isStopAll.
  rewrite bind_gets; cbn beta.
  change (m_bStopAllFlag (batch_queued (t :: rest) (set_m_bStopAllFlag false s))) with false.
  cbv iota.
  unfold NetworkManager.isWaitingRequestEmpty, d.isWaitQueueEmpty.
  rewrite bind_unfold, bind_gets; cbn beta. unfold mret at 1, M_ret at 1. cbn [prepend].
  rewrite prepend_nil.
  change (m_queWaiting (batch_queued (t :: rest) (set_m_bStopAllFlag false s)))
    with (m_queWaiting s ++ stamped b (ms_uiRequestId s) (t :: rest)).
  rewrite Hq, app_nil_l, stamped_cons. fold first.
  rewrite bool_decide_eq_false_2 by done. cbn [negb].
  unfold NetworkManager.isThreadAvailable, d.isThreadAvailable.
  rewrite bind_unfold, bind_gets; cbn beta. unfold mret at 1, M_ret at 1. cbn [prepend].
  rewrite prepend_nil.
  change (m_pThreadPool (batch_queued (t :: rest) (set_m_bStopAllFlag false s)))
    with (m_pThreadPool s).
  rewrite bool_decide_eq_true_2 by done.
  unfold d.takeFromWaitQueue. rewrite bind_unfold, bind_gets; cbn beta.
  change (m_queWaiting (batch_queued (t :: rest) (set_m_bStopAllFlag false s)))
    with (m_queWaiting s ++ stamped b (ms_uiRequestId s) (t :: rest)).
  rewrite Hq, app_nil_l, stamped_cons. fold first.
  rewrite bind_modify; cbn beta. unfold mret at 1, M_ret at 1. cbn [prepend].
  rewrite prepend_nil.
  assert (d.isRequestValid (url first) = true) as -> by done.
  unfold NetworkManager.startRequest, d.startRequest.
  rewrite bind_unfold, bind_unfold, bind_gets; cbn beta.
  cbn [m_pThreadPool set_m_queWaiting]. 
  change (m_pThreadPool (batch_queued (t :: rest) (set_m_bStopAllFlag false s)))
    with (m_pThreadPool s).
  rewrite bool_decide_eq_true_2 by done.
  rewrite bind_modify; cbn beta. rewrite bind_emit, bind_gets; cbn beta.
  rewrite bind_modify; cbn beta. unfold mret, M_ret. cbn -[stamped advanced wrap_u64].
  eexists. split; [reflexivity|]. cbn -[stamped advanced wrap_u64].
  split_and!; try done.
  unfold stamped. by rewrite length_imap.
Qed.

(** An instance. *)
Lemma addBatchRequest_starts_one_task_witness :
  ∃ s', NetworkManager.addBatchRequest false 8 [a_task false false; a_task false false]
          (constructed 4)
        = Done (Some (mkNetworkReply 0 true), 1) s'
            [ThreadStarted (mkNetworkRequestThread
                              (set_uiId 1 (set_uiBatchId 1 (a_task false false))))]
    ∧ length (m_queWaiting s') = 1%nat.
Proof.
  destruct (addBatchRequest_starts_one_task false 7 (a_task false false)
              [a_task false false] (constructed 4))
    as (s' & Hrun & _ & Hlen & _);
    [reflexivity|reflexivity|reflexivity|vm_compute; discriminate|].
  exists s'. split; [exact Hrun|exact Hlen].
Defined.

(** ** Delivery of results *)

Lemma killRequestThread_eq uiRequestId s :
  d.killRequestThread uiRequestId s
  = Done (bool_decide (is_Some (m_mapRequestThread s !! uiRequestId)))
      (set_m_mapRequestThread (delete uiRequestId (m_mapRequestThread s)) s)
      (released uiRequestId s).
Proof.
  unfold d.killRequestThread, released. rewrite bind_gets; cbn beta.
  destruct (m_mapRequestThread s !! uiRequestId) as [t|] eqn:E.
  - rewrite bool_decide_eq_true_2 by eauto. done.
  - rewrite bool_decide_eq_false_2 by (by intros [? ?]).
    unfold mret, M_ret. f_equal. rewrite delete_id by done. simpl.
    symmetry. apply private_eta.
Qed.


Lemma getBatchReply_eq uiBatchId (bRemove : bool) s :
  d.getBatchReply uiBatchId bRemove s
  = Done (m_mapBatchReply s !! uiBatchId)
      (if bRemove then set_m_mapBatchReply (delete uiBatchId (m_mapBatchReply s)) s else s) [].
Proof.
  unfold d.getBatchReply, qmap_contains. rewrite bind_gets; cbn beta.
  destruct (m_mapBatchReply s !! uiBatchId) as [r|] eqn:E.
  - rewrite bool_decide_eq_true_2 by eauto. destruct bRemove.
    + by rewrite bind_modify.
    + done.
  - rewrite bool_decide_eq_false_2 by (by intros [? ?]).
    unfold mret, M_ret. f_equal. destruct bRemove; [|done].
    rewrite delete_id by done. symmetry. apply private_eta.
Qed.



Lemma onRequestFinished_settles asyn fuel request s :
  m_bStopAllFlag s = false → uiId request > 0 →
  NetworkManager.onRequestFinished asyn fuel request s
  = (NetworkManager.settleRequest asyn request ;; NetworkManager.startNextRequest asyn fuel) s.
Proof. apply onRequestFinished_guard. Qed.




Lemma batchReplyOf_success request s :
  bSuccess request = true →
  NetworkManager.batchReplyOf request s
  = let batch := uiBatchId request in
    if bool_decide (sizeFinished batch s = qmap_value 0 (m_mapBatchTotalSize s) batch)
    then Done (m_mapBatchReply s !! batch, true)
           (set_m_mapBatchReply (delete batch (m_mapBatchReply s))
              (set_m_mapBatchFinishedSize (delete batch (m_mapBatchFinishedSize s))
                 (set_m_mapBatchTotalSize (delete batch (m_mapBatchTotalSize s)) s)))
           [batchRequestFinished batch]
    else Done (m_mapBatchReply s !! batch, false)
           (set_m_mapBatchFinishedSize
              (<[batch := sizeFinished batch s]> (m_mapBatchFinishedSize s)) s) [].
Proof.
  intros Hok. unfold NetworkManager.batchReplyOf. rewrite Hok.
  rewrite bind_gets; cbn beta. rewrite bind_modify; cbn beta.
  rewrite bind_gets; cbn beta. cbn [m_mapBatchTotalSize set_m_mapBatchFinishedSize].
  fold (sizeFinished (uiBatchId request) s). cbn zeta.
  destruct (bool_decide (sizeFinished (uiBatchId request) s
                         = qmap_value 0 (m_mapBatchTotalSize s) (uiBatchId request))).
  - rewrite bind_modify; cbn beta. rewrite bind_gets; cbn beta.
    rewrite bind_modify; cbn beta. rewrite bind_emit. rewrite bind_unfold, getBatchReply_eq.
    cbn. by rewrite delete_insert_eq.
  - rewrite bind_unfold, getBatchReply_eq. done.
Qed.

Lemma notifyResult_member_success asyn request s :
  uiBatchId request > 0 → bSuccess request = true →
  NetworkManager.notifyResult asyn request s
  = let batch := uiBatchId request in
    if bool_decide (sizeFinished batch s = qmap_value 0 (m_mapBatchTotalSize s) batch)
    then Done tt
           (set_m_mapBatchReply (delete batch (m_mapBatchReply s))
              (set_m_mapBatchFinishedSize (delete batch (m_mapBatchFinishedSize s))
                 (set_m_mapBatchTotalSize (delete batch (m_mapBatchTotalSize s)) s)))
           (batchRequestFinished batch
              :: delivered asyn (m_mapBatchReply s !! batch) request true)
    else Done tt
           (set_m_mapBatchFinishedSize
              (<[batch := sizeFinished batch s]> (m_mapBatchFinishedSize s)) s)
           (delivered asyn (m_mapBatchReply s !! batch) request false).
Proof.
  intros Hb Hok. unfold NetworkManager.notifyResult.
  rewrite bool_decide_eq_false_2, bool_decide_eq_true_2 by lia.
  rewrite bind_unfold, batchReplyOf_success by done. cbn zeta.
  destruct (bool_decide (sizeFinished (uiBatchId request) s
                         = qmap_value 0 (m_mapBatchTotalSize s) (uiBatchId request)));
    cbn [prepend fst snd app]; unfold delivered, notification;
    by destruct (m_mapBatchReply s !! uiBatchId request), asyn.
Qed.

Lemma onRequestFinished_member_success asyn fuel request s :
  m_bStopAllFlag s = false → uiId request > 0 → uiBatchId request > 0 →
  bSuccess request = true →
  let batch := uiBatchId request in
  NetworkManager.onRequestFinished asyn fuel request s
  = if bool_decide (sizeFinished batch s = qmap_value 0 (m_mapBatchTotalSize s) batch)
    then prepend (batchRequestFinished batch
                  :: delivered asyn (m_mapBatchReply s !! batch) request true
                  ++ released (uiId request) s)
           (NetworkManager.startNextRequest asyn fuel
              (batch_completed (uiId request) batch s))
    else prepend (delivered asyn (m_mapBatchReply s !! batch) request false
                  ++ released (uiId request) s)
           (NetworkManager.startNextRequest asyn fuel
              (batch_advanced (uiId request) batch s)).
Proof.
  intros Hrun Hid Hb Hok batch.
  rewrite onRequestFinished_settles, bind_unfold by done.
  unfold NetworkManager.settleRequest.
  rewrite bind_unfold, retryOrNotify_eq. rewrite Hok. cbn [negb andb prepend app].
  assert (NetworkManager.abortBatch request = mret tt) as ->.
  { unfold NetworkManager.abortBatch. rewrite Hok. by rewrite andb_false_r. }
  rewrite bind_unfold, notifyResult_member_success by done. cbn zeta. fold batch.
  destruct (bool_decide (sizeFinished batch s = qmap_value 0 (m_mapBatchTotalSize s) batch));
    cbn [prepend]; rewrite bind_ret, bind_unfold, killRequestThread_eq;
    unfold released; cbn; by rewrite ?app_nil_r.
Qed.

(** Property X10.  While the manager runs, the success of a batch member
    increments the finished count of its batch (as an [int]).  When the count
    equals the recorded total, [batchRequestFinished] is raised first, the
    result is delivered destroying to the batch handle, and the total, the
    finished count and the handle of the batch are removed; otherwise the new
    count is stored and the result is delivered non-destroying, the handle
    staying registered.  In both cases the worker of the task is released,
    the single-task handles, the wait queue, the failed registry and the byte
    ledger are untouched, and the dispatch runs. *)
Theorem batch_member_success asyn fuel request s :
  m_bStopAllFlag s = false → uiId request > 0 → uiBatchId request > 0 →
  bSuccess request = true →
  let batch := uiBatchId request in
  let pReply := m_mapBatchReply s !! batch in
  ∃ s1 out1,
    NetworkManager.onRequestFinished asyn fuel request s
    = prepend out1 (NetworkManager.startNextRequest asyn fuel s1)
    ∧ m_mapRequestThread s1 = delete (uiId request) (m_mapRequestThread s)
    ∧ m_mapReply s1 = m_mapReply s
    ∧ m_queWaiting s1 = m_queWaiting s
    ∧ m_queFailed s1 = m_queFailed s
    ∧ (∀ dir, currentBytes dir s1 = currentBytes dir s ∧ totalBytes dir s1 = totalBytes dir s)
    ∧ if bool_decide (sizeFinished batch s = qmap_value 0 (m_mapBatchTotalSize s) batch)
      then out1 = batchRequestFinished batch :: delivered asyn pReply request true
                  ++ released (uiId request) s
           ∧ m_mapBatchTotalSize s1 = delete batch (m_mapBatchTotalSize s)
           ∧ m_mapBatchFinishedSize s1 = delete batch (m_mapBatchFinishedSize s)
           ∧ m_mapBatchReply s1 = delete batch (m_mapBatchReply s)
      else out1 = delivered asyn pReply request false ++ released (uiId request) s
           ∧ m_mapBatchTotalSize s1 = m_mapBatchTotalSize s
           ∧ m_mapBatchFinishedSize s1
             = <[batch := sizeFinished batch s]> (m_mapBatchFinishedSize s)
           ∧ m_mapBatchReply s1 = m_mapBatchReply s.
Proof.
  intros Hrun Hid Hb Hok batch pReply.
  rewrite onRequestFinished_member_success by done. fold batch. fold pReply.
  destruct (bool_decide (sizeFinished batch s = qmap_value 0 (m_mapBatchTotalSize s) batch)).
  - eexists (batch_completed (uiId request) batch s), _. split; [reflexivity|].
    split_and!; try done; by intros [].
  - eexists (batch_advanced (uiId request) batch s), _. split; [reflexivity|].
    split_and!; try done; by intros [].
Qed.

(** An instance. *)
Lemma batch_member_success_witness :
  ∃ s1 out1,
    NetworkManager.onRequestFinished false 8 finished_task batch_of_one_in_flight
    = prepend out1 (NetworkManager.startNextRequest false 8 s1)
    ∧ out1 = batchRequestFinished 1
             :: delivered false (m_mapBatchReply batch_of_one_in_flight !! 1) finished_task true
             ++ released 1 batch_of_one_in_flight
    ∧ m_mapBatchReply s1 = delete 1 (m_mapBatchReply batch_of_one_in_flight).
Proof.
  destruct (batch_member_success false 8 finished_task batch_of_one_in_flight
              eq_refl eq_refl eq_refl eq_refl)
    as (s1 & out1 & Hrun & _ & _ & _ & _ & _ & H).
  change (bool_decide (sizeFinished (uiBatchId finished_task) batch_of_one_in_flight
                       = qmap_value 0 (m_mapBatchTotalSize batch_of_one_in_flight)
                           (uiBatchId finished_task))) with true in H.
  cbv iota in H. destruct H as (Hout & _ & _ & Hreply).
  exists s1, out1. split; [exact Hrun|]. split; [exact Hout|exact Hreply].
Defined.

(** ** Cancellation of a batch, in general *)

Lemma filter_nil_Forall {A : Type} (P : A → Prop) `{!∀ x, Decision (P x)} (l : list A) :
  Forall (λ x, ¬ P x) l → filter P l = [].
Proof.
  induction 1 as [|x l Hx _ IH]; [done|]. by rewrite filter_cons_False.
Qed.

Lemma remove_if_contains {V B : Type} (f : NetworkManagerPrivate → gmap Z V)
    (g : gmap Z V → NetworkManagerPrivate → NetworkManagerPrivate) (b : Z) (rest : M B) s :
  g (f s) s = s →
  (m ← gets f ;
   (if qmap_contains m b then modify (g (delete b m)) else mret tt) ;; rest) s
  = rest (g (delete b (f s)) s).
Proof.
  intros Hg. rewrite bind_gets. unfold qmap_contains. case_bool_decide as Hc.
  - by rewrite bind_modify.
  - rewrite bind_ret. rewrite delete_id, Hg; [done|].
    by apply eq_None_not_Some.
Qed.

Lemma remove_if_contains_last {V : Type} (f : NetworkManagerPrivate → gmap Z V)
    (g : gmap Z V → NetworkManagerPrivate → NetworkManagerPrivate) (b : Z) s :
  g (f s) s = s →
  (m ← gets f ;
   if qmap_contains m b then modify (g (delete b m)) else mret tt) s
  = Done tt (g (delete b (f s)) s) [].
Proof.
  intros Hg. rewrite bind_gets. unfold qmap_contains. case_bool_decide as Hc; [done|].
  rewrite delete_id, Hg; [done|]. by apply eq_None_not_Some.
Qed.

Lemma stopBatchRequests_eq b s :
  d.stopBatchRequests b s
  = Done tt (without_batch b s)
      ((ThreadQuit <$> filter (λ t, batchId t = b) (qmap_values (m_mapRequestThread s)))
       ++ canceled_batch b s).
Proof.
  unfold d.stopBatchRequests, canceled_batch.
  rewrite bind_gets, bind_for_each_emit, bind_modify, bind_gets, bind_modify, bind_gets,
    bind_modify.
  cbn [m_mapBatchReply set_m_queWaiting set_m_mapRequestThread set_m_mapBatchReply].
  assert (∀ (o : list Event) (m0 : M unit) s0,
            m0 s0 = Done tt s0 o →
            ∀ (rest : M unit) r, rest s0 = r → (m0 ;; rest) s0 = prepend o r) as Hstep.
  { intros o m0 s0 E rest r <-. by rewrite bind_unfold, E. }
  erewrite (Hstep (canceled_batch b s)); [| unfold canceled_batch;
    by destruct (m_mapBatchReply s !! b) | reflexivity].
  rewrite (remove_if_contains m_mapBatchTotalSize set_m_mapBatchTotalSize) by apply private_eta.
  rewrite (remove_if_contains m_mapBatchFinishedSize set_m_mapBatchFinishedSize)
    by apply private_eta.
  rewrite (remove_if_contains m_mapBatchDownloadCurrentBytes set_m_mapBatchDownloadCurrentBytes)
    by apply private_eta.
  rewrite (remove_if_contains m_mapBatchDownloadTotalBytes set_m_mapBatchDownloadTotalBytes)
    by apply private_eta.
  rewrite (remove_if_contains m_mapBatchUploadCurrentBytes set_m_mapBatchUploadCurrentBytes)
    by apply private_eta.
  rewrite (remove_if_contains_last m_mapBatchUploadTotalBytes set_m_mapBatchUploadTotalBytes)
    by apply private_eta.
  unfold canceled_batch. simpl. by rewrite app_nil_r.
Qed.

Lemma without_batch_idemp b s : without_batch b (without_batch b s) = without_batch b s.
Proof.
  unfold without_batch. simpl. f_equal.
  - apply map_filter_id. intros k t Hk. by apply map_lookup_filter_Some in Hk as [_ ?].
  - apply delete_id, lookup_delete_eq.
  - rewrite list_filter_filter. apply list_filter_iff. tauto.
  - apply delete_id, lookup_delete_eq.
  - apply delete_id, lookup_delete_eq.
  - apply delete_id, lookup_delete_eq.
  - apply delete_id, lookup_delete_eq.
  - apply delete_id, lookup_delete_eq.
  - apply delete_id, lookup_delete_eq.
Qed.

(** Property X14.  [stopBatchRequests] always returns.  Every worker of the
    batch is told to quit and removed, the waiting tasks of the batch are
    removed from the queue (the others keep their order), the batch handle
    receives one destroying cancellation, if registered, and is removed, and
    the six ledger entries of the batch are removed.  Workers, tasks, handles
    and ledger entries of other batches, the single-task handles and the
    failed registry are untouched.  A second call does nothing. *)
Theorem stopBatchRequests_removes_batch b s :
  ∃ s' out, d.stopBatchRequests b s = Done tt s' out
    ∧ notifications out = canceled_batch b s
    ∧ (∀ k t, m_mapRequestThread s !! k = Some t → batchId t = b → ThreadQuit t ∈ out)
    ∧ (∀ k t, m_mapRequestThread s' !! k = Some t
              ↔ m_mapRequestThread s !! k = Some t ∧ batchId t ≠ b)
    ∧ m_queWaiting s' = filter (λ t, uiBatchId t ≠ b) (m_queWaiting s)
    ∧ m_mapBatchReply s' !! b = None
    ∧ m_mapBatchTotalSize s' !! b = None
    ∧ m_mapBatchFinishedSize s' !! b = None
    ∧ m_mapBatchDownloadCurrentBytes s' !! b = None
    ∧ m_mapBatchDownloadTotalBytes s' !! b = None
    ∧ m_mapBatchUploadCurrentBytes s' !! b = None
    ∧ m_mapBatchUploadTotalBytes s' !! b = None
    ∧ (∀ b', b' ≠ b →
         m_mapBatchReply s' !! b' = m_mapBatchReply s !! b'
         ∧ m_mapBatchTotalSize s' !! b' = m_mapBatchTotalSize s !! b'
         ∧ m_mapBatchFinishedSize s' !! b' = m_mapBatchFinishedSize s !! b'
         ∧ m_mapBatchDownloadCurrentBytes s' !! b' = m_mapBatchDownloadCurrentBytes s !! b'
         ∧ m_mapBatchDownloadTotalBytes s' !! b' = m_mapBatchDownloadTotalBytes s !! b'
         ∧ m_mapBatchUploadCurrentBytes s' !! b' = m_mapBatchUploadCurrentBytes s !! b'
         ∧ m_mapBatchUploadTotalBytes s' !! b' = m_mapBatchUploadTotalBytes s !! b')
    ∧ m_mapReply s' = m_mapReply s
    ∧ m_queFailed s' = m_queFailed s
    ∧ d.stopBatchRequests b s' = Done tt s' [].
Proof.
  eexists (without_batch b s), _. split; [apply stopBatchRequests_eq|].
  split_and!; simpl; try apply lookup_delete_eq; try done.
  - rewrite notifications_app, notifications_fmap_nil, app_nil_l by done.
    unfold canceled_batch. by destruct (m_mapBatchReply s !! b).
  - intros k t Hk Hb. apply elem_of_app. left. apply list_elem_of_fmap.
    exists t. split; [done|]. apply list_elem_of_filter. split; [done|].
    apply elem_of_qmap_values. eauto.
  - intros k t. by rewrite map_lookup_filter_Some.
  - intros b' Hb'. by rewrite !lookup_delete_ne.
  - rewrite stopBatchRequests_eq, without_batch_idemp. f_equal.
    unfold canceled_batch. simpl. rewrite lookup_delete_eq, app_nil_r.
    rewrite filter_nil_Forall; [done|]. apply Forall_forall. intros t Ht Hb.
    apply elem_of_qmap_values in Ht as [k Hk].
    by apply map_lookup_filter_Some in Hk as [_ ?].
Qed.

(** Property X11.  A success that arrives for a member of a batch after
    [stopBatchRequests] removed the batch notifies nobody, but it leaves a
    finished count of 1 for the batch, with no total and no handle. *)
Theorem late_success_of_stopped_batch asyn fuel request s :
  m_bStopAllFlag s = false → uiId request > 0 → uiBatchId request > 0 →
  bSuccess request = true →
  let batch := uiBatchId request in
  ∃ s0 out0, d.stopBatchRequests batch s = Done tt s0 out0
    ∧ let s1 := batch_advanced (uiId request) batch s0 in
      NetworkManager.onRequestFinished asyn fuel request s0
      = prepend (released (uiId request) s0) (NetworkManager.startNextRequest asyn fuel s1)
      ∧ notifications (released (uiId request) s0) = []
      ∧ m_mapBatchFinishedSize s1 !! batch = Some 1
      ∧ m_mapBatchTotalSize s1 !! batch = None
      ∧ m_mapBatchReply s1 !! batch = None.
Proof.
  intros Hrun Hid Hb Hok batch.
  eexists (without_batch batch s), _. split; [apply stopBatchRequests_eq|]. cbn zeta.
  assert (sizeFinished batch (without_batch batch s) = 1) as Hone.
  { unfold sizeFinished, qmap_value. cbn [m_mapBatchFinishedSize without_batch].
    by rewrite lookup_delete_eq. }
  split_and!.
  - rewrite onRequestFinished_member_success by done. fold batch. rewrite Hone.
    unfold qmap_value. cbn [m_mapBatchTotalSize m_mapBatchReply without_batch].
    rewrite !lookup_delete_eq. cbn [default delivered app].
    by rewrite bool_decide_eq_false_2 by done.
  - unfold released. by destruct (_ !! _).
  - cbn. rewrite lookup_insert_eq. by rewrite Hone.
  - cbn. apply lookup_delete_eq.
  - cbn. apply lookup_delete_eq.
Qed.

(** An instance. *)
Lemma late_success_of_stopped_batch_witness :
  ∃ s0 out0, d.stopBatchRequests 1 batch_of_one_in_flight = Done tt s0 out0
    ∧ m_mapBatchFinishedSize (batch_advanced 1 1 s0) !! 1 = Some 1.
Proof.
  destruct (late_success_of_stopped_batch false 8 finished_task batch_of_one_in_flight
              eq_refl eq_refl eq_refl eq_refl)
    as (s0 & out0 & Hstop & _ & _ & Hcount & _).
  exists s0, out0. split; [exact Hstop|exact Hcount].
Defined.

(** ** Cancellation of one task, in general *)


Lemma erase_first_Some uiTaskId que q r :
  d.erase_first uiTaskId que = Some (q, r) ↔
  ∃ pre t post, que = pre ++ t :: post ∧ uiId t = uiTaskId
    ∧ Forall (λ t', uiId t' ≠ uiTaskId) pre ∧ q = pre ++ post ∧ r = head post.
Proof.
  revert q r. induction que as [|t que IH]; intros q r; simpl.
  - split; [done|]. intros (pre & t & post & H & _). by destruct pre.
  - case_bool_decide as Ht.
    + split.
      * intros [= <- <-]. by exists [], t, que.
      * intros (pre & t' & post & Hq & Ht' & Hpre & -> & ->).
        destruct pre as [|t0 pre]; simplify_eq/=; [done|].
        by apply Forall_cons in Hpre as [? _].
    + destruct (d.erase_first uiTaskId que) as [[q0 r0]|] eqn:E; simpl.
      * split.
        -- intros [= <- <-]. destruct (proj1 (IH q0 r0) eq_refl)
             as (pre & t' & post & -> & Ht' & Hpre & -> & ->).
           exists (t :: pre), t', post. split_and!; try done. by apply Forall_cons.
        -- intros (pre & t' & post & Hq & Ht' & Hpre & -> & ->).
           destruct pre as [|t0 pre]; simplify_eq/=.
           apply Forall_cons in Hpre as [_ Hpre].
           assert (Some (q0, r0) = Some (pre ++ post, head post)) as [= -> ->]; [|done].
           apply IH. by exists pre, t', post.
      * split; [done|]. intros (pre & t' & post & Hq & Ht' & Hpre & -> & ->).
        destruct pre as [|t0 pre]; simplify_eq/=.
        apply Forall_cons in Hpre as [_ Hpre].
        assert (None = Some (pre ++ post, head post)); [|done].
        apply IH. by exists pre, t', post.
Qed.

Lemma stopRequest_eq uiTaskId s :
  d.stopRequest uiTaskId s =
  match d.erase_first uiTaskId (m_queWaiting s) with
  | Some (_, None) => Undefined
  | _ => Done tt (without_request uiTaskId s) (stopRequest_effects uiTaskId s)
  end.
Proof.
  unfold d.stopRequest, without_request, stopRequest_effects, stopped_task, qmap_contains.
  rewrite bind_gets.
  destruct (m_mapRequestThread s !! uiTaskId) as [thread|] eqn:Ethread;
    destruct (d.erase_first uiTaskId (m_queWaiting s)) as [[que' [next|]]|] eqn:Eq;
    destruct (m_mapReply s !! uiTaskId) as [reply|] eqn:Ereply;
    destruct (decide (is_Some (m_queFailed s !! uiTaskId))) as [Hf|Hf];
    run_bind; rewrite ?Eq, ?Ereply; run_bind;
    rewrite ?(bool_decide_eq_true_2 _ Hf), ?(bool_decide_eq_false_2 _ Hf); run_bind;
    rewrite ?Ereply; try done;
    try (rewrite ?(delete_id (m_queFailed s)) by (by apply eq_None_not_Some);
         rewrite ?(delete_id (m_mapRequestThread s)) by done; done).
Qed.

Lemma erase_first_end uiTaskId que :
  (∃ q, d.erase_first uiTaskId que = Some (q, None)) ↔ first_match_is_last uiTaskId que.
Proof.
  unfold first_match_is_last. split.
  - intros [q (pre & t & post & -> & Ht & Hpre & -> & Hr)%erase_first_Some].
    destruct post; [|done]. by exists pre, t.
  - intros (pre & t & -> & Ht & Hpre). exists pre. apply erase_first_Some.
    exists pre, t, []. by rewrite app_nil_r.
Qed.

(** Property X12.  [stopRequest] reads past the end of the wait queue
    exactly when the first entry with the id is the last entry of the queue;
    in every other state it returns. *)
Theorem stopRequest_undefined_iff uiTaskId s :
  (d.stopRequest uiTaskId s = Undefined ↔ first_match_is_last uiTaskId (m_queWaiting s))
  ∧ (¬ first_match_is_last uiTaskId (m_queWaiting s) →
     ∃ s' out, d.stopRequest uiTaskId s = Done tt s' out).
Proof.
  rewrite stopRequest_eq, <- erase_first_end.
  destruct (d.erase_first uiTaskId (m_queWaiting s)) as [[q [next|]]|]; split;
    try (split; [done|by intros [? [=]]]); try (intros _; by eexists _, _).
  - split; [eauto|done].
  - intros []. eauto.
Qed.



(** ** Progress reports *)

Lemma qmap_value_insert {V : Type} (dflt : V) (m : gmap Z V) k v :
  qmap_value dflt (<[k := v]> m) k = v.
Proof. unfold qmap_value. by rewrite lookup_insert_eq. Qed.

Lemma updateProgress_batch uiTargetId batch iBytes iTotalBytes dir s :
  iBytes ≠ 0 → iTotalBytes ≠ 0 → batch > 0 →
  let total := wrap_s64 (wrap_u64 (qmap_value 0 (totalBytes dir s) (ms_uiBatchId s)
                 + d.increased (qmap_value ∅ (currentBytes dir s) batch) uiTargetId iBytes)) in
  ∃ s', NetworkManager.updateProgress uiTargetId batch iBytes iTotalBytes dir s
        = Done tt s' [batchProgress dir batch (wrap_u64 total)]
    ∧ same_but_bytes dir s s'
    ∧ currentBytes dir s'
      = <[batch := <[uiTargetId := iBytes]> (qmap_value ∅ (currentBytes dir s) batch)]>
          (currentBytes dir s)
    ∧ totalBytes dir s' = <[batch := total]> (totalBytes dir s).
Proof.
  intros Hx Ht Hb total. unfold NetworkManager.updateProgress.
  rewrite !bool_decide_eq_false_2 by lia. cbn [orb].
  rewrite bool_decide_eq_true_2 by lia.
  unfold d.updateBatchProgress. rewrite bool_decide_eq_false_2 by done.
  subst total. destruct dir; run_bind; eexists; (split; [reflexivity|]);
    unfold same_but_bytes; cbn; split_and!; done.
Qed.

(** Property X16.  [updateProgress] always returns and changes nothing but
    the byte ledger of the reported direction.  A report with 0 bytes or a
    total of 0 is dropped.  Any other report of a single task (batch id 0)
    changes no state and raises one progress signal with the bytes as given;
    of a batch member, it records the bytes as the last value of the task,
    leaves the ledger entries of other batches alone and raises one batch
    progress signal that carries the total now stored for the batch. *)
Theorem updateProgress_signals uiTargetId batch iBytes iTotalBytes dir s :
  ∃ s' out, NetworkManager.updateProgress uiTargetId batch iBytes iTotalBytes dir s
            = Done tt s' out
    ∧ same_but_bytes dir s s'
    ∧ (iBytes = 0 ∨ iTotalBytes = 0 ∨ batch < 0 → s' = s ∧ out = [])
    ∧ (iBytes ≠ 0 → iTotalBytes ≠ 0 → batch = 0 →
       s' = s ∧ out = [taskProgress dir uiTargetId iBytes iTotalBytes])
    ∧ (iBytes ≠ 0 → iTotalBytes ≠ 0 → batch > 0 →
       out = [batchProgress dir batch
                (wrap_u64 (qmap_value 0 (totalBytes dir s') batch))]
       ∧ qmap_value ∅ (currentBytes dir s') batch !! uiTargetId = Some iBytes
       ∧ (∀ b, b ≠ batch →
            currentBytes dir s' !! b = currentBytes dir s !! b
            ∧ totalBytes dir s' !! b = totalBytes dir s !! b)).
Proof.
  assert (same_but_bytes dir s s) as Hsame by (by unfold same_but_bytes).
  destruct (decide (iBytes = 0)) as [Hx|Hx].
  { exists s, []. unfold NetworkManager.updateProgress.
    rewrite (bool_decide_eq_true_2 (iBytes = 0)) by done. cbn [orb].
    split_and!; try done. }
  destruct (decide (iTotalBytes = 0)) as [Ht|Ht].
  { exists s, []. unfold NetworkManager.updateProgress.
    rewrite (bool_decide_eq_true_2 (iTotalBytes = 0)) by done. rewrite orb_true_r.
    split_and!; try done. }
  destruct (decide (batch = 0)) as [Hb|Hb].
  { exists s, [taskProgress dir uiTargetId iBytes iTotalBytes].
    unfold NetworkManager.updateProgress.
    rewrite !bool_decide_eq_false_2 by done. cbn [orb].
    rewrite bool_decide_eq_true_2 by done.
    split_and!; try done; try lia. by destruct dir. }
  destruct (decide (batch > 0)) as [Hpos|Hneg].
  - destruct (updateProgress_batch uiTargetId batch iBytes iTotalBytes dir s)
      as (s' & Hrun & Hframe & Hcur & Htot); [done..|].
    eexists s', _. split; [exact Hrun|]. split_and!; [done|lia|done|].
    intros _ _ _. rewrite Hcur, Htot, !qmap_value_insert, lookup_insert_eq.
    split_and!; [done|done|]. intros b Hne. by rewrite !lookup_insert_ne.
  - exists s, []. unfold NetworkManager.updateProgress.
    rewrite !bool_decide_eq_false_2 by done. cbn [orb].
    split_and!; try done; lia.
Qed.

(** ** Stopped manager, idle manager and termination *)

Lemma stopAllRequest_sets_flag s :
  ∃ s' out, d.stopAllRequest s = Done tt s' out ∧ m_bStopAllFlag s' = true
    ∧ (m_bStopAllFlag s = false → s' = stopped s).
Proof.
  destruct (m_bStopAllFlag s) eqn:Hflag.
  - exists s, []. by rewrite stopAllRequest_stopped.
  - eexists (stopped s), _. by rewrite stopAllRequest_running.
Qed.

Lemma startNextRequest_stopped asyn fuel s :
  m_bStopAllFlag s = true → NetworkManager.startNextRequest asyn (S fuel) s = Done tt s [].
Proof.
  intros H. cbn [NetworkManager.startNextRequest]. unfold d.isStopAll.
  rewrite bind_gets; cbn beta. by rewrite H.
Qed.

(** Property X15.  After [stopAllRequest], every result that still arrives
    is dropped by [onRequestFinished] and a [WaitForIdleThread] event starts
    nothing: no state change and no effect.  Progress events are not gated by
    the stop flag: a report for a batch member is still recorded in the byte
    ledger and still raises the batch progress signal. *)
Theorem stopAllRequest_drops_late_results s :
  ∃ s' out, d.stopAllRequest s = Done tt s' out
    ∧ (∀ asyn fuel request,
         NetworkManager.onRequestFinished asyn fuel request s' = Done tt s' [])
    ∧ (∀ asyn fuel,
         NetworkManager.event asyn (S fuel) NetworkManager.WaitForIdleThread s'
         = Done true s' [])
    ∧ (∀ asyn fuel uiTargetId batch iBytes iTotalBytes dir,
         iBytes ≠ 0 → iTotalBytes ≠ 0 → batch > 0 →
         ∃ s'' uiBytes,
           NetworkManager.event asyn fuel
             (NetworkManager.NetworkProgress uiTargetId batch iBytes iTotalBytes dir) s'
           = Done true s'' [batchProgress dir batch uiBytes]
           ∧ qmap_value ∅ (currentBytes dir s'') batch !! uiTargetId = Some iBytes
           ∧ m_bStopAllFlag s'' = true).
Proof.
  destruct (stopAllRequest_sets_flag s) as (s' & out & Hrun & Hflag & _).
  exists s', out. split; [done|]. split_and!.
  - intros asyn fuel request. apply onRequestFinished_dropped. by rewrite Hflag.
  - intros asyn fuel. unfold NetworkManager.event.
    by rewrite bind_unfold, startNextRequest_stopped.
  - intros asyn fuel uiTargetId batch iBytes iTotalBytes dir Hx Ht Hb.
    destruct (updateProgress_batch uiTargetId batch iBytes iTotalBytes dir s')
      as (s'' & Hp & Hframe & Hcur & Htot); [done..|].
    eexists s'', _. unfold NetworkManager.event. rewrite bind_unfold, Hp.
    split_and!; [done| |].
    + by rewrite Hcur, qmap_value_insert, lookup_insert_eq.
    + destruct Hframe as (_ & _ & -> & _). done.
Qed.

(** Property X7.  While the manager runs, when tasks wait and no pool thread
    is free, or when nothing waits and exactly one thread is active, handling
    a [WaitForIdleThread] event changes no state and posts the same event
    again: the manager polls until a worker exits. *)
Theorem waitForIdleThread_polls asyn fuel s :
  m_bStopAllFlag s = false →
  (m_queWaiting s ≠ []
   ∧ ¬ pool_activeThreadCount (m_pThreadPool s) < pool_maxThreadCount (m_pThreadPool s))
  ∨ (m_queWaiting s = [] ∧ pool_activeThreadCount (m_pThreadPool s) = 1) →
  NetworkManager.event asyn (S fuel) NetworkManager.WaitForIdleThread s
  = Done true s [PostWaitForIdleThread].
Proof.
  intros Hflag Hcase. unfold NetworkManager.event. rewrite bind_unfold.
  cbn [NetworkManager.startNextRequest]. unfold d.isStopAll.
  rewrite bind_gets; cbn beta. rewrite Hflag.
  unfold NetworkManager.isWaitingRequestEmpty, d.isWaitQueueEmpty.
  rewrite bind_unfold, bind_gets; cbn beta. unfold mret at 1, M_ret at 1. cbn [prepend].
  rewrite prepend_nil.
  destruct Hcase as [[Hq Hfull]|[Hq Hone]].
  - rewrite bool_decide_eq_false_2 by done. cbn [negb].
    unfold NetworkManager.isThreadAvailable, d.isThreadAvailable.
    rewrite bind_unfold, bind_gets; cbn beta. unfold mret at 1, M_ret at 1. cbn [prepend].
    rewrite prepend_nil. by rewrite bool_decide_eq_false_2 by done.
  - rewrite bool_decide_eq_true_2 by done. cbn [negb]. rewrite bind_gets; cbn beta.
    rewrite bool_decide_eq_false_2 by lia. by rewrite bool_decide_eq_true_2 by lia.
Qed.

(** An instance. *)
Lemma waitForIdleThread_polls_witness :
  NetworkManager.event false 8 NetworkManager.WaitForIdleThread two_submitted
  = Done true two_submitted [PostWaitForIdleThread].
Proof.
  apply (waitForIdleThread_polls false 7 two_submitted); [reflexivity|].
  left. split; [discriminate|]. vm_compute. discriminate.
Defined.

Lemma backlog_le s : (backlog s ≤ 2 * length (m_queWaiting s))%nat.
Proof.
  unfold backlog, pending. induction (m_queWaiting s) as [|t que IH]; simpl; [lia|].
  assert (attempts (m_queFailed s) t ≤ 2)%nat; [|lia].
  unfold attempts. case_match; lia.
Qed.

Lemma updateProgress_returns uiTargetId uiBatchId iBytes iTotalBytes bDownload s :
  ∃ s' out,
    NetworkManager.updateProgress uiTargetId uiBatchId iBytes iTotalBytes bDownload s
    = Done tt s' out.
Proof.
  destruct (completes_preserves
              (NetworkManager.updateProgress uiTargetId uiBatchId iBytes iTotalBytes bDownload) s)
    as ([] & s' & out & E); [|by eauto].
  unfold NetworkManager.updateProgress, d.updateBatchProgress. repeat preserves_step.
Qed.

(** Property X8.  [startNextRequest] and [onRequestFinished] call each
    other, and they return: a call depth above twice the length of the wait
    queue plus two is never exhausted, since every waiting task causes at most
    two completions.  So [event] returns for every event: with [true] for the
    two kinds it handles and for a queued call of [onRequestFinished], with the
    answer of [QObject::event] for any other event.  And so does
    [addBatchRequest], with no handle and id 0 exactly for the empty list. *)
Theorem handlers_terminate asyn fuel s :
  (2 * length (m_queWaiting s) + 2 < fuel)%nat →
  (∃ s' out, NetworkManager.startNextRequest asyn fuel s = Done tt s' out)
  ∧ (∀ request, ∃ s' out,
       NetworkManager.onRequestFinished asyn fuel request s = Done tt s' out)
  ∧ (∀ e, ∃ s' out,
       NetworkManager.event asyn fuel e s
       = Done match e with NetworkManager.OtherEvent bBase => bBase | _ => true end s' out)
  ∧ (∀ tasks, (2 * length (m_queWaiting s ++ tasks) + 2 < fuel)%nat →
       ∃ r s' out, NetworkManager.addBatchRequest asyn fuel tasks s = Done r s' out
         ∧ (tasks = [] ↔ r = (None, 0))).
Proof.
  intros Hfuel. pose proof (backlog_le s) as Hle.
  assert (∃ s' out, NetworkManager.startNextRequest asyn fuel s = Done tt s' out) as Hnext.
  { apply startNextRequest_total. lia. }
  assert (∀ request, ∃ s' out,
            NetworkManager.onRequestFinished asyn fuel request s = Done tt s' out) as Hfin.
  { intros request. apply onRequestFinished_total. lia. }
  split_and!; [done|done| |].
  - intros [|uiId batch iBytes iTotalBytes dir|request|bBase]; unfold NetworkManager.event.
    + destruct Hnext as (s' & out & E). rewrite bind_unfold, E. by eexists _, _.
    + destruct (updateProgress_returns uiId batch iBytes iTotalBytes dir s)
        as (s' & out & E).
      rewrite bind_unfold, E. by eexists _, _.
    + destruct (Hfin request) as (s' & out & E). rewrite bind_unfold, E. by eexists _, _.
    + by eexists _, _.
  - intros [|t rest] Hlen.
    + exists (None, 0), (set_m_bStopAllFlag false s), [].
      unfold NetworkManager.addBatchRequest.
      rewrite bind_unfold, resetStopAllFlag_eq. done.
    + rewrite addBatchRequest_unfold. cbn zeta.
      destruct (_ && _).
      * destruct (startNextRequest_total asyn fuel
                    (batch_queued (t :: rest) (set_m_bStopAllFlag false s)))
          as (s' & out & E).
        { pose proof (backlog_le (batch_queued (t :: rest) (set_m_bStopAllFlag false s))) as H.
          revert H Hlen. cbn -[stamped advanced]. rewrite !length_app.
          unfold stamped. rewrite length_imap. cbn [length]. lia. }
        rewrite E. eexists _, _, _. split; [done|]. split; intros [=].
      * eexists _, _, _. split; [done|]. split; intros [=].
Qed.

(** An instance. *)
Lemma handlers_terminate_witness :
  ∃ s' out, NetworkManager.onRequestFinished false 8 finished_single two_submitted
            = Done tt s' out.
Proof.
  refine (proj1 (proj2 (handlers_terminate false 8 two_submitted _)) finished_single).
  vm_compute. lia.
Defined.

(** ** Notifications that reach their handle *)

Lemma reaching_silent out : notifications out = [] → reaching out = [].
Proof.
  induction out as [|e out IH]; [done|].
  unfold notifications. rewrite filter_cons. destruct e; simpl; try done.
Qed.

Lemma reaching_app_silent o1 o2 : notifications o1 = [] → reaching (o1 ++ o2) = reaching o2.
Proof.
  induction o1 as [|e o1 IH]; [done|].
  unfold notifications. rewrite filter_cons. destruct e; simpl; try done.
Qed.

Lemma deleted_app reply o1 o2 : deleted reply (o1 ++ o2) = deleted reply o1 || deleted reply o2.
Proof. apply existsb_app. Qed.

Lemma deleted_fmap reply (l : list NetworkReply) :
  reply ∈ l → deleted reply (DeleteReply <$> l) = true.
Proof.
  intros H. unfold deleted. apply existsb_exists. exists (DeleteReply reply). split.
  - apply list_elem_of_In, list_elem_of_fmap. by exists reply.
  - by rewrite Nat.eqb_refl, eqb_reflx.
Qed.

Lemma qmap_last_elem_of {V : Type} (m : gmap Z V) v : qmap_last m = Some v → v ∈ qmap_values m.
Proof.
  unfold qmap_last. intros H. apply last_Some in H as [l ->].
  apply elem_of_app. right. by apply list_elem_of_singleton.
Qed.

(** The cancellation of [stopBatchRequests] reaches the handle, which is
    taken from the map and not deleted. *)
Lemma stopBatchRequests_reaches b s :
  ∃ s2 out2, d.stopBatchRequests b s = Done tt s2 out2
    ∧ notifications out2 = canceled_batch b s
    ∧ reaching out2 = canceled_batch b s.
Proof.
  eexists _, _. split; [apply stopBatchRequests_eq|]. split.
  - rewrite notifications_app, notifications_fmap_nil, app_nil_l by done.
    unfold canceled_batch. by destruct (m_mapBatchReply s !! b).
  - rewrite reaching_app_silent by by apply notifications_fmap_nil.
    unfold canceled_batch. by destruct (m_mapBatchReply s !! b).
Qed.

(** Claim C5.  [stopAllRequest] with the flag set changes nothing and does
    nothing.  With the flag clear it leaves the state [stopped s]: flag set,
    worker map, wait queue, failed registry, the six ledger maps and both
    reply maps empty.  Its effects are a quit for every registered worker,
    then one destroying cancellation posted to one handle of the single-task
    reply map (none when that map is empty), then the deletion of every reply
    object, the one posted to among them.  The deletion removes the posted
    event: the cancellation should be delivered to the handle, and no
    notification of [stopAllRequest] reaches a handle.  The cancellation of
    [stopBatchRequests] does reach its handle.  A second call is a no-op. *)
Theorem stopAllRequest_notifies_nobody s :
  ∃ s' out, d.stopAllRequest s = Done tt s' out
    ∧ (if m_bStopAllFlag s then s' = s ∧ out = []
       else s' = stopped s
            ∧ out = (ThreadQuit <$> qmap_values (m_mapRequestThread s)) ++ canceled_all s
                      ++ (DeleteReply <$> qmap_values (m_mapReply s))
                      ++ (DeleteReply <$> qmap_values (m_mapBatchReply s))
            ∧ (∀ k t, m_mapRequestThread s !! k = Some t → ThreadQuit t ∈ out)
            ∧ notifications out = canceled_all s
            ∧ (m_mapReply s = ∅ → canceled_all s = [])
            ∧ (m_mapReply s ≠ ∅ →
               ∃ k reply, m_mapReply s !! k = Some reply
                 ∧ canceled_all s = [PostReplyResult reply d.canceled_all_task true]
                 ∧ deleted reply (DeleteReply <$> qmap_values (m_mapReply s)) = true))
    ∧ reaching out = []
    ∧ (∀ b, ∃ s2 out2, d.stopBatchRequests b s = Done tt s2 out2
         ∧ notifications out2 = canceled_batch b s
         ∧ reaching out2 = canceled_batch b s)
    ∧ m_bStopAllFlag s' = true
    ∧ d.stopAllRequest s' = Done tt s' [].
Proof.
  destruct (m_bStopAllFlag s) eqn:Hflag.
  - exists s, []. rewrite stopAllRequest_stopped by done.
    split_and!; try done. intros b. apply stopBatchRequests_reaches.
  - eexists (stopped s), _. split; [by apply stopAllRequest_running|].
    split; [|split; [|split; [intros b; apply stopBatchRequests_reaches|
                              split; [done|by apply stopAllRequest_stopped]]]].
    + split_and!; [done|done| | | |].
      * intros k t Hk. apply elem_of_app. left. apply list_elem_of_fmap.
        exists t. split; [done|]. apply elem_of_qmap_values. eauto.
      * rewrite !notifications_app, !notifications_fmap_nil, app_nil_r by done.
        unfold canceled_all. by destruct (qmap_last (m_mapReply s)).
      * intros H. unfold canceled_all. apply qmap_last_None in H. by rewrite H.
      * intros H. unfold canceled_all.
        destruct (qmap_last (m_mapReply s)) as [reply|] eqn:Hlast.
        -- destruct (qmap_last_Some _ _ Hlast) as [k Hk]. exists k, reply.
           split_and!; [done|done|]. by apply deleted_fmap, qmap_last_elem_of.
        -- by apply qmap_last_None in Hlast.
    + rewrite reaching_app_silent by by apply notifications_fmap_nil.
      unfold canceled_all. destruct (qmap_last (m_mapReply s)) as [reply|] eqn:Hlast.
      * cbn [app reaching]. rewrite deleted_app, deleted_fmap by by apply qmap_last_elem_of.
        cbn [orb]. apply reaching_silent.
        by rewrite notifications_app, !notifications_fmap_nil.
      * cbn [app]. apply reaching_silent.
        by rewrite notifications_app, !notifications_fmap_nil.
Qed.

(** Two single tasks submitted, then [stopAllRequest]: the cancellation is
    posted to the handle of task 2, which is deleted next. *)
Lemma stopAllRequest_notifies_nobody_witness :
  ∃ out, d.stopAllRequest two_submitted = Done tt (stopped two_submitted) out
    ∧ notifications out
      = [PostReplyResult (mkNetworkReply 1 false) d.canceled_all_task true]
    ∧ DeleteReply (mkNetworkReply 1 false) ∈ out
    ∧ reaching out = []
    ∧ d.stopAllRequest (stopped two_submitted) = Done tt (stopped two_submitted) [].
Proof.
  destruct (stopAllRequest_notifies_nobody two_submitted)
    as (s' & out & Hrun & (-> & Hout & _ & Hn & _) & Hnone & _ & _ & Hagain).
  exists out. split; [exact Hrun|]. split; [rewrite Hn; vm_compute; reflexivity|].
  split; [|split; [exact Hnone|exact Hagain]].
  rewrite Hout. apply list_elem_of_In. vm_compute. tauto.
Defined.

(** ** Retries, through the steps of the manager *)

















